(** * Lampshade pattern generator: geometry calculator and page tiler

    A shallow embedding of [src/patternCalculator.ts] ([calculatePatternData])
    and of the print tiling in [src/PatternPreview.tsx] ([handlePrint]), with
    the data types of the repository's [types.ts].

    A TypeScript [number] is an IEEE binary64 value.  The data types below are
    parametric in the number type, and the calculator is embedded twice:

    - over the real numbers [R] (top level), where [Math.sqrt], [Math.cos],
      [Math.sin] and [Math.PI] are the exact functions and constant.  This is
      the model for the geometric statements (radii, angle, bounding box);
    - over binary64 ([Module Binary64], primitive floats), for the part of the
      function that decides which branch is taken (the dispatch and the two
      guards), where rounding matters.

    Template strings are kept structured: the [viewBox] string
    [`${minX} ${minY} ${width} ${height}`] is a record of its four numbers and
    the SVG path string [pathD] is the list of its commands. *)

From Stdlib Require Import Floats.
From Stdlib Require Import Reals Lra Lia ZArith List String.
Import ListNotations.

Set Implicit Arguments.

(** ** Data model ([types.ts]) *)

(** [type Unit = 'in' | 'cm' | 'px'] *)
Inductive Unit : Set := unit_in | unit_cm | unit_px.

(** [type Shape = 'cone' | 'empire' | 'drum'] *)
Inductive Shape : Set := cone | empire | drum.

Record LampshadeDimensions (num : Type) : Type := mkDims {
  topDiameter : num;
  bottomDiameter : num;
  height : num;
  unit : Unit;
  shape : Shape
}.

(** The [viewBox] attribute, [`${minX} ${minY} ${width} ${height}`]. *)
Record ViewBox (num : Type) : Type := mkViewBox {
  minX : num;
  minY : num;
  vbWidth : num;
  vbHeight : num
}.

(** The commands of the SVG path string [pathD]: [M x y], [L x y],
    [A rx ry rotation largeArcFlag sweepFlag x y] and [Z]. *)
Inductive PathCommand (num : Type) : Type :=
| MoveTo (x y : num)
| LineTo (x y : num)
| ArcTo (rx ry : num) (rotation largeArcFlag sweepFlag : Z) (x y : num)
| ClosePath.

Arguments ClosePath {num}.

(** [type PatternData = ConePatternData | DrumPatternData], tagged by [type]. *)
Inductive PatternData (num : Type) : Type :=
| DrumPatternData (circumference : num) (viewBox : ViewBox num)
    (width height : num) (dimensions : LampshadeDimensions num)
| ConePatternData (pathD : list (PathCommand num)) (viewBox : ViewBox num)
    (width height : num) (dimensions : LampshadeDimensions num)
    (slantHeight topArcLength bottomArcLength : num).

Section Accessors.
Context {num : Type}.

Definition PatternData_viewBox (p : PatternData num) : ViewBox num :=
  match p with
  | DrumPatternData _ vb _ _ _ => vb
  | ConePatternData _ vb _ _ _ _ _ _ => vb
  end.

Definition PatternData_width (p : PatternData num) : num :=
  match p with
  | DrumPatternData _ _ w _ _ => w
  | ConePatternData _ _ w _ _ _ _ _ => w
  end.

Definition PatternData_height (p : PatternData num) : num :=
  match p with
  | DrumPatternData _ _ _ h _ => h
  | ConePatternData _ _ _ h _ _ _ _ => h
  end.

Definition PatternData_dimensions (p : PatternData num) : LampshadeDimensions num :=
  match p with
  | DrumPatternData _ _ _ _ d => d
  | ConePatternData _ _ _ _ d _ _ _ => d
  end.

Definition isDrum (p : PatternData num) : bool :=
  match p with DrumPatternData _ _ _ _ _ => true | _ => false end.
End Accessors.

(** A call either returns a value or throws [new Error(message)]. *)
Inductive Result (A : Type) : Type :=
| Ok (value : A)
| Throw (message : string).

Arguments Throw {A}.

(** The two messages thrown by [calculatePatternData]; the specification
    calls the first failure [InvalidTaper] and the second [AngleOverflow]. *)
Definition InvalidTaper : string :=
  "Bottom diameter must be larger than top diameter."%string.

Definition AngleOverflow : string :=
  "The resulting pattern angle is too large. This geometry is not possible."%string.

(** ** [calculatePatternData] over the reals *)

Open Scope R_scope.

(** The local constants of the cone branch, as functions of the input. *)
Definition rTop (dims : LampshadeDimensions R) : R := topDiameter dims / 2.
Definition rBottom (dims : LampshadeDimensions R) : R := bottomDiameter dims / 2.
Definition verticalHeight (dims : LampshadeDimensions R) : R := height dims.

Definition slantHeight (dims : LampshadeDimensions R) : R :=
  sqrt (verticalHeight dims ^ 2 + (rBottom dims - rTop dims) ^ 2).

Definition LTop (dims : LampshadeDimensions R) : R :=
  (slantHeight dims * rTop dims) / (rBottom dims - rTop dims).

Definition LBottom (dims : LampshadeDimensions R) : R :=
  (slantHeight dims * rBottom dims) / (rBottom dims - rTop dims).

Definition angle (dims : LampshadeDimensions R) : R :=
  (2 * PI * rBottom dims) / LBottom dims.

Definition startAngle (dims : LampshadeDimensions R) : R := - angle dims / 2.
Definition endAngle (dims : LampshadeDimensions R) : R := angle dims / 2.

Definition p1x dims := LTop dims * cos (startAngle dims).
Definition p1y dims := LTop dims * sin (startAngle dims).
Definition p2x dims := LBottom dims * cos (startAngle dims).
Definition p2y dims := LBottom dims * sin (startAngle dims).
Definition p3x dims := LBottom dims * cos (endAngle dims).
Definition p3y dims := LBottom dims * sin (endAngle dims).
Definition p4x dims := LTop dims * cos (endAngle dims).
Definition p4y dims := LTop dims * sin (endAngle dims).

Definition largeArcFlag (dims : LampshadeDimensions R) : Z :=
  if Rgt_dec (angle dims) PI then 1%Z else 0%Z.

Definition pathD (dims : LampshadeDimensions R) : list (PathCommand R) :=
  [ MoveTo (p1x dims) (p1y dims);
    LineTo (p2x dims) (p2y dims);
    ArcTo (LBottom dims) (LBottom dims) 0 (largeArcFlag dims) 1 (p3x dims) (p3y dims);
    LineTo (p4x dims) (p4y dims);
    ArcTo (LTop dims) (LTop dims) 0 (largeArcFlag dims) 0 (p1x dims) (p1y dims);
    ClosePath ].

(** [Math.min(...xs)] and [Math.max(...xs)].  On the empty array JavaScript
    answers [Infinity] and [-Infinity], which [R] does not have; the arrays of
    [calculatePatternData] hold at least the four corners. *)
Definition Math_min (xs : list R) : R :=
  match xs with
  | [] => 0
  | x :: rest => fold_left Rmin rest x
  end.

Definition Math_max (xs : list R) : R :=
  match xs with
  | [] => 0
  | x :: rest => fold_left Rmax rest x
  end.

(** [allX] and [allY] after the conditional [push]: the four corners, and the
    point [(LBottom, 0)] when [angle < Math.PI]. *)
Definition allX (dims : LampshadeDimensions R) : list R :=
  [p1x dims; p2x dims; p3x dims; p4x dims] ++
  (if Rlt_dec (angle dims) PI then [LBottom dims] else []).

Definition allY (dims : LampshadeDimensions R) : list R :=
  [p1y dims; p2y dims; p3y dims; p4y dims] ++
  (if Rlt_dec (angle dims) PI then [0] else []).

Definition coneViewBox (dims : LampshadeDimensions R) : ViewBox R :=
  let minX := Math_min (allX dims) in
  let minY := Math_min (allY dims) in
  let maxX := Math_max (allX dims) in
  let maxY := Math_max (allY dims) in
  let width := maxX - minX in
  let height := maxY - minY in
  mkViewBox minX minY width height.

(** [calculatePatternData] over the exact reals: the three tests compare
    exact values.  The program makes them on rounded binary64 values, which
    [Binary64.calculatePatternData_branch] follows. *)
Definition calculatePatternData (dims : LampshadeDimensions R)
  : Result (PatternData R) :=
  if Req_dec_T (topDiameter dims) (bottomDiameter dims) then
    (* Drum shade calculation *)
    let circumference := PI * bottomDiameter dims in
    let width := circumference in
    let height := height dims in
    Ok (DrumPatternData circumference (mkViewBox 0 0 width height)
          width height dims)
  else
    (* Cone/Empire shade calculation *)
    if Rle_dec (rBottom dims) (rTop dims) then Throw InvalidTaper
    else if Rgt_dec (angle dims) (2 * PI) then Throw AngleOverflow
    else
      let vb := coneViewBox dims in
      Ok (ConePatternData (pathD dims) vb (vbWidth vb) (vbHeight vb) dims
            (slantHeight dims)
            (PI * topDiameter dims) (PI * bottomDiameter dims)).

(** Inputs used in the statements below. *)
Definition dimsOf (top bottom h : R) (s : Shape) : LampshadeDimensions R :=
  mkDims top bottom h unit_cm s.

(** [initialDimensions] of the repository's constants. *)
Definition initialDimensions : LampshadeDimensions R := dimsOf 20 30 20 cone.

(** ** The outline drawn by [pathD]

    [pathD] moves to [p1], draws the radial edge to [p2], the outer arc of
    radius [LBottom] to [p3] (sweep flag 1: increasing polar angle), the radial
    edge to [p4] and the inner arc of radius [LTop] back to [p1] (sweep flag 0).
    Both arcs are centred at the apex (the origin): the corners lie at polar
    angles [startAngle] and [endAngle], and the large-arc flag is set exactly
    when the swept angle [endAngle - startAngle = angle] exceeds a half turn.
    The outline is therefore the set of points below, in polar form. *)
Inductive onOutline (dims : LampshadeDimensions R) : R -> R -> Prop :=
| on_start_edge r :
    LTop dims <= r <= LBottom dims ->
    onOutline dims (r * cos (startAngle dims)) (r * sin (startAngle dims))
| on_outer_arc phi :
    startAngle dims <= phi <= endAngle dims ->
    onOutline dims (LBottom dims * cos phi) (LBottom dims * sin phi)
| on_end_edge r :
    LTop dims <= r <= LBottom dims ->
    onOutline dims (r * cos (endAngle dims)) (r * sin (endAngle dims))
| on_inner_arc phi :
    startAngle dims <= phi <= endAngle dims ->
    onOutline dims (LTop dims * cos phi) (LTop dims * sin phi).

(** The rectangle a [viewBox] shows. *)
Definition inViewBox (vb : ViewBox R) (x y : R) : Prop :=
  minX vb <= x <= minX vb + vbWidth vb /\
  minY vb <= y <= minY vb + vbHeight vb.

(** A box is the bounding box of the outline when it contains every point of
    the outline and each of its four sides is reached by one. *)
Definition boundsOutline (dims : LampshadeDimensions R) (vb : ViewBox R) : Prop :=
  forall x y, onOutline dims x y -> inViewBox vb x y.

Definition tightOnOutline (dims : LampshadeDimensions R) (vb : ViewBox R) : Prop :=
  (exists y, onOutline dims (minX vb) y) /\
  (exists y, onOutline dims (minX vb + vbWidth vb) y) /\
  (exists x, onOutline dims x (minY vb)) /\
  (exists x, onOutline dims x (minY vb + vbHeight vb)).

(** ** The page tiler ([handlePrint] of [PatternPreview.tsx]) *)

Definition PPI : R := 96.

Definition convertToPx (value : R) (u : Unit) : R :=
  match u with
  | unit_in => value * PPI
  | unit_cm => (value / 2.54) * PPI
  | unit_px => value
  end.

Definition convertFromPx (value : R) (targetUnit : Unit) : R :=
  match targetUnit with
  | unit_in => value / PPI
  | unit_cm => (value / PPI) * 2.54
  | unit_px => value
  end.

Inductive PaperSize : Set := A4 | Letter.

(** [PAPER_SIZES[paperSize]], in inches: [(width, height)]. *)
Definition PAPER_SIZES (paperSize : PaperSize) : R * R :=
  match paperSize with
  | A4 => (8.27, 11.69)
  | Letter => (8.5, 11)
  end.

Definition PRINT_MARGIN_IN : R := 0.5.

(** [Math.ceil] of a real number. *)
Definition Math_ceil (x : R) : Z := Zceil x.

(** An alignment mark: the page edge it sits on (its CSS class) and the page
    its text names, [Join to R<joinRow>, C<joinCol>], counted from 1. *)
Inductive Edge : Set := Top | Bottom | Left | Right.

Record JoinMark : Set := mkMark {
  edge : Edge;
  joinRow : Z;
  joinCol : Z
}.

(** One [div.print-page]: the page index of [pageInfo], the total size line
    as the two numbers handed to [toFixed(2)] and the unit (the two-decimal
    text itself is not modelled),
    the [(Row r, Col c)] text of [assemblyInfo], the alignment marks in the
    order they are appended, and the offsets of the SVG wrapper. *)
Record PrintPage : Type := mkPage {
  pageNumber : Z;
  ofPages : Z;
  totalSize : R * R * Unit;
  assemblyRow : Z;
  assemblyCol : Z;
  marks : list JoinMark;
  wrapperLeft : R;
  wrapperTop : R
}.

(** The values of a loop counter: [0, 1, ..., n-1] (none when [n <= 0]). *)
Definition counter (n : Z) : list Z := map Z.of_nat (seq 0 (Z.to_nat n)).

(** The mark on edge [e] whose text names the tile at row [r] and column [c]
    of the grid, both counted from 0 as the loop counters are. *)
Definition markTo (e : Edge) (r c : Z) : JoinMark := mkMark e (r + 1) (c + 1).

Definition alignmentMarks (rows cols row col : Z) : list JoinMark :=
  (if (row >? 0)%Z then [mkMark Top row (col + 1)] else []) ++
  (if (row <? rows - 1)%Z then [mkMark Bottom (row + 2) (col + 1)] else []) ++
  (if (col >? 0)%Z then [mkMark Left (row + 1) col] else []) ++
  (if (col <? cols - 1)%Z then [mkMark Right (row + 1) (col + 2)] else []).

Section Pages.
Variables (rows cols totalPages : Z).
Variables (printableWidthPx printableHeightPx : R).
Variable sizeLine : R * R * Unit.

(** The body of the inner loop. *)
Definition createPage (row col : Z) : PrintPage :=
  mkPage (row * cols + col + 1) totalPages sizeLine
    (row + 1) (col + 1)
    (alignmentMarks rows cols row col)
    (- (IZR col * printableWidthPx))
    (- (IZR row * printableHeightPx)).

(** Step 5: the two nested [for] loops, rows outside and columns inside. *)
Definition createPages : list PrintPage :=
  flat_map (fun row => map (fun col => createPage row col) (counter cols))
    (counter rows).
End Pages.

(** What a click on Print does: nothing (no pattern or no mounted SVG), an
    [alert] with no page built, or the print container handed to
    [window.print]. *)
Inductive PrintOutcome : Type :=
| NothingToPrint
| Alerted (message : string)
| Printed (pages : list PrintPage).

(** The pages a click hands to the printer. *)
Definition printedPages (o : PrintOutcome) : list PrintPage :=
  match o with
  | Printed pages => pages
  | _ => []
  end.

Definition PatternTooLarge : string :=
  "This pattern is too large to print automatically (more than 50 pages). Please download the SVG and use a vector editor for tiling."%string.

(** Step 3: the grid, over the exact reals: the ceiling of the exact
    quotient.  The program takes [Math.ceil] of the rounded binary64
    quotient, which [Tiler64.gridCols] and [Tiler64.gridRows] follow. *)
Definition gridCols (patternWidthPx printableWidthPx : R) : Z :=
  Math_ceil (patternWidthPx / printableWidthPx).

Definition gridRows (patternHeightPx printableHeightPx : R) : Z :=
  Math_ceil (patternHeightPx / printableHeightPx).

(** Steps 3 to 6 of [handlePrint], from the pattern and printable sizes in
    pixels. *)
Definition tilePattern (patternWidthPx patternHeightPx
                        printableWidthPx printableHeightPx : R)
                       (sizeLine : R * R * Unit) : PrintOutcome :=
  let cols := gridCols patternWidthPx printableWidthPx in
  let rows := gridRows patternHeightPx printableHeightPx in
  if (cols * rows >? 50)%Z then Alerted PatternTooLarge
  else
    let totalPages := (cols * rows)%Z in
    Printed (createPages rows cols totalPages
               printableWidthPx printableHeightPx sizeLine).

Definition handlePrint (patternData : option (PatternData R)) (svgMounted : bool)
                       (paperSize : PaperSize) (printUnit : Unit) : PrintOutcome :=
  match patternData with
  | None => NothingToPrint
  | Some pd =>
    if negb svgMounted then NothingToPrint
    else
      let u := unit (PatternData_dimensions pd) in
      let patternWidthPx := convertToPx (PatternData_width pd) u in
      let patternHeightPx := convertToPx (PatternData_height pd) u in
      let patternWidthInPrintUnit := convertFromPx patternWidthPx printUnit in
      let patternHeightInPrintUnit := convertFromPx patternHeightPx printUnit in
      let pagePaperSize := PAPER_SIZES paperSize in
      let printableWidthPx := (fst pagePaperSize - 2 * PRINT_MARGIN_IN) * PPI in
      let printableHeightPx := (snd pagePaperSize - 2 * PRINT_MARGIN_IN) * PPI in
      tilePattern patternWidthPx patternHeightPx
        printableWidthPx printableHeightPx
        (patternWidthInPrintUnit, patternHeightInPrintUnit, printUnit)
  end.

(** ** The branch taken by [calculatePatternData], in binary64

    Lines 3 to 38 of [patternCalculator.ts] use only [=== <= > + - * /],
    [Math.sqrt] and [Math.pow(_, 2)].  The comparisons and the four
    arithmetic operations are those of IEEE 754, correctly rounded, and so is
    the square root; [Math.pow(x, 2)] is taken as the rounded product [x * x],
    which is what the engines' [pow] returns for the exponent 2.  The
    trigonometric part of the function comes after both guards and plays no
    role in them. *)
Module Binary64.
Import PrimFloat.
Local Open Scope float_scope.

(** [Math.PI], the binary64 value nearest to pi. *)
Definition Math_PI : float := 0x1.921fb54442d18p+1.

Definition Math_pow2 (x : float) : float := x * x.

Definition rTop (dims : LampshadeDimensions float) : float := topDiameter dims / 2.
Definition rBottom (dims : LampshadeDimensions float) : float := bottomDiameter dims / 2.

Definition slantHeight (dims : LampshadeDimensions float) : float :=
  sqrt (Math_pow2 (height dims) + Math_pow2 (rBottom dims - rTop dims)).

Definition LTop (dims : LampshadeDimensions float) : float :=
  (slantHeight dims * rTop dims) / (rBottom dims - rTop dims).

Definition LBottom (dims : LampshadeDimensions float) : float :=
  (slantHeight dims * rBottom dims) / (rBottom dims - rTop dims).

Definition angle (dims : LampshadeDimensions float) : float :=
  (2 * Math_PI * rBottom dims) / LBottom dims.

(** Where control goes: the drum return, one of the two [throw]s, or on to
    the construction of the sector with the scalars computed so far. *)
Inductive Branch : Type :=
| DrumReturn (circumference width height : float)
| Thrown (message : string)
| SectorPath (slantHeight LTop LBottom angle : float).

Definition calculatePatternData_branch (dims : LampshadeDimensions float) : Branch :=
  if topDiameter dims =? bottomDiameter dims then
    let circumference := Math_PI * bottomDiameter dims in
    DrumReturn circumference circumference (height dims)
  else if rBottom dims <=? rTop dims then Thrown InvalidTaper
  else if 2 * Math_PI <? angle dims then Thrown AngleOverflow
  else SectorPath (slantHeight dims) (LTop dims) (LBottom dims) (angle dims).

Definition dimsOf (top bottom h : float) (s : Shape) : LampshadeDimensions float :=
  mkDims top bottom h unit_cm s.

(** [topDiameter = 20], [bottomDiameter = 26], [height = 1e-9]: the
    hexadecimal literal is the binary64 value of [1e-9]. *)
Definition nearlyFlat : LampshadeDimensions float :=
  dimsOf 20 26 0x1.12e0be826d695p-30 cone.

(** [topDiameter = 1], [bottomDiameter = 100], [height = 0.01]: the
    hexadecimal literal is the binary64 value of [0.01]. *)
Definition extremeRatio : LampshadeDimensions float :=
  dimsOf 1 100 0x1.47ae147ae147bp-7 cone.
End Binary64.

(** ** Inputs and predicates used in the statements *)

(** A valid frustum input of the data model: positive diameters and height,
    the top strictly narrower than the bottom. *)
Definition validFrustum (dims : LampshadeDimensions R) : Prop :=
  0 < topDiameter dims /\ topDiameter dims < bottomDiameter dims /\ 0 < height dims.

Definition swapDiameters (dims : LampshadeDimensions R) : LampshadeDimensions R :=
  mkDims (bottomDiameter dims) (topDiameter dims) (height dims)
    (unit dims) (shape dims).

(** The input [topDiameter = 1], [bottomDiameter = 100], [height = 0.01]. *)
Definition extremeRatio : LampshadeDimensions R := dimsOf 1 100 0.01 cone.

(** A shallow shade, [topDiameter = 20], [bottomDiameter = 30], [height = 5],
    whose sector spans more than a half turn ([PI * sqrt 2], about 4.44 rad). *)
Definition shallowShade : LampshadeDimensions R := dimsOf 20 30 5 cone.

(** The same shade measured in another unit: every length multiplied by [k]. *)
Definition scaleDims (k : R) (dims : LampshadeDimensions R) : LampshadeDimensions R :=
  mkDims (k * topDiameter dims) (k * bottomDiameter dims) (k * height dims)
    (unit dims) (shape dims).

(** The window of the pattern that a page of the printable size shows when
    the SVG wrapper sits at the page's offsets [left] and [top]: the pattern
    point [(x, y)] is drawn at [(x + left, y + top)] of the page. *)
Definition inPageWindow (printableWidthPx printableHeightPx : R)
           (page : PrintPage) (x y : R) : Prop :=
  0 <= x + wrapperLeft page <= printableWidthPx /\
  0 <= y + wrapperTop page <= printableHeightPx.

(** Strictly inside the window. *)
Definition insidePageWindow (printableWidthPx printableHeightPx : R)
           (page : PrintPage) (x y : R) : Prop :=
  0 < x + wrapperLeft page < printableWidthPx /\
  0 < y + wrapperTop page < printableHeightPx.

(** ** The form handlers ([InputForm.tsx]) *)
Module InputForm.

(** The [name] of a numeric input field. *)
Inductive FieldName : Set := topDiameterName | bottomDiameterName | heightName.

(** [value === '' ? 0 : parseFloat(value)]: [None] is the empty field,
    [Some v] a field whose text [parseFloat] reads as [v]. *)
Definition fieldValue (value : option R) : R :=
  match value with
  | None => 0
  | Some v => v
  end.

Definition handleChange (name : FieldName) (value : option R)
           (prev : LampshadeDimensions R) : LampshadeDimensions R :=
  match name with
  | topDiameterName =>
      mkDims (fieldValue value) (bottomDiameter prev) (height prev) (unit prev) (shape prev)
  | bottomDiameterName =>
      mkDims (topDiameter prev) (fieldValue value) (height prev) (unit prev) (shape prev)
  | heightName =>
      mkDims (topDiameter prev) (bottomDiameter prev) (fieldValue value) (unit prev) (shape prev)
  end.

Definition handleDrumDiameterChange (value : option R)
           (prev : LampshadeDimensions R) : LampshadeDimensions R :=
  let numValue := fieldValue value in
  mkDims numValue numValue (height prev) (unit prev) (shape prev).

Definition handleUnitChange (u : Unit)
           (prev : LampshadeDimensions R) : LampshadeDimensions R :=
  mkDims (topDiameter prev) (bottomDiameter prev) (height prev) u (shape prev).

(** [x || y] on numbers: [y] when [x] is 0 (the only falsy real). *)
Definition orElse (x y : R) : R := if Req_dec_T x 0 then y else x.

Definition handleShapeChange (s : Shape)
           (prev : LampshadeDimensions R) : LampshadeDimensions R :=
  let newDims :=
    mkDims (topDiameter prev) (bottomDiameter prev) (height prev) (unit prev) s in
  match s with
  | drum =>
      let diameter :=
        orElse (orElse (Rmax (topDiameter prev) (bottomDiameter prev))
                       (bottomDiameter prev)) 0 in
      mkDims diameter diameter (height newDims) (unit newDims) (shape newDims)
  | _ => newDims
  end.

(** What the user can do on the form. *)
Inductive FormEvent : Type :=
| Change (name : FieldName) (value : option R)
| DrumDiameter (value : option R)
| UnitSelected (u : Unit)
| ShapeSelected (s : Shape).

Definition applyEvent (e : FormEvent)
           (prev : LampshadeDimensions R) : LampshadeDimensions R :=
  match e with
  | Change name value => handleChange name value prev
  | DrumDiameter value => handleDrumDiameterChange value prev
  | UnitSelected u => handleUnitChange u prev
  | ShapeSelected s => handleShapeChange s prev
  end.

(** The inputs the form renders: for a drum a single diameter field, wired
    to [handleDrumDiameterChange]; otherwise the two diameter fields, wired
    to [handleChange]; the height field, the unit and the shape always. *)
Definition rendered (dims : LampshadeDimensions R) (e : FormEvent) : Prop :=
  match e with
  | Change heightName _ => True
  | Change _ _ => shape dims <> drum
  | DrumDiameter _ => shape dims = drum
  | UnitSelected _ => True
  | ShapeSelected _ => True
  end.

End InputForm.

(** [handleShapeChange] on binary64, with [Math.max] and the truthiness of
    numbers as JavaScript has them: [Math.max] answers NaN when an argument
    is NaN and prefers [+0] to [-0]; NaN, [+0] and [-0] are falsy. *)
Module InputForm64.
Import PrimFloat.
Local Open Scope float_scope.

Definition Math_max (a b : float) : float :=
  if (is_nan a || is_nan b)%bool then nan
  else if a <? b then b
  else if b <? a then a
  else if get_sign a then b else a.

Definition truthy (x : float) : bool := negb (is_nan x || is_zero x)%bool.

Definition orElse (x y : float) : float := if truthy x then x else y.

Definition handleShapeChange (s : Shape)
           (prev : LampshadeDimensions float) : LampshadeDimensions float :=
  let newDims :=
    mkDims (topDiameter prev) (bottomDiameter prev) (height prev) (unit prev) s in
  match s with
  | drum =>
      let diameter :=
        orElse (orElse (Math_max (topDiameter prev) (bottomDiameter prev))
                       (bottomDiameter prev)) 0 in
      mkDims diameter diameter (height newDims) (unit newDims) (shape newDims)
  | _ => newDims
  end.

End InputForm64.

(** ** The application state ([App.tsx]) *)
Module App.

(** [interface SavedPattern extends LampshadeDimensions { id: number }]; the
    [id] is a timestamp, an integer. *)
Record SavedPattern : Type := mkSaved {
  savedDimensions : LampshadeDimensions R;
  id : Z
}.

(** [Partial<Record<'topDiameter' | 'bottomDiameter' | 'height', string>>] *)
Record ValidationErrors : Set := mkErrors {
  topDiameterError : option string;
  bottomDiameterError : option string;
  heightError : option string
}.

Definition noErrors : ValidationErrors := mkErrors None None None.

(** [Object.keys(newErrors).length > 0] *)
Definition hasErrors (e : ValidationErrors) : bool :=
  match e with
  | mkErrors None None None => false
  | _ => true
  end.

Definition diameterMessage : string := "Diameter must be greater than zero."%string.
Definition heightMessage : string := "Height must be greater than zero."%string.
Definition taperMessage : string :=
  "Top diameter must be smaller than bottom diameter for cone/empire shapes."%string.

Definition isTapered (s : Shape) : bool :=
  match s with
  | cone | empire => true
  | drum => false
  end.

(** The validation at the head of [handleGenerate]: four tests in order, each
    assigning its key of [newErrors]. *)
Definition validate (dimensions : LampshadeDimensions R) : ValidationErrors :=
  let e0 := noErrors in
  let e1 :=
    if Rle_dec (topDiameter dimensions) 0
    then mkErrors (Some diameterMessage) (bottomDiameterError e0) (heightError e0)
    else e0 in
  let e2 :=
    if Rle_dec (bottomDiameter dimensions) 0
    then mkErrors (topDiameterError e1) (Some diameterMessage) (heightError e1)
    else e1 in
  let e3 :=
    if Rle_dec (height dimensions) 0
    then mkErrors (topDiameterError e2) (bottomDiameterError e2) (Some heightMessage)
    else e2 in
  if (isTapered (shape dimensions) &&
      if Rge_dec (topDiameter dimensions) (bottomDiameter dimensions)
      then true else false)%bool
  then mkErrors (Some taperMessage) (bottomDiameterError e3) (heightError e3)
  else e3.

(** The state of the [App] component, and the dimensions captured by the
    callback of a running [setTimeout], if one is pending. *)
Record AppState : Type := mkState {
  dimensions : LampshadeDimensions R;
  patternData : option (PatternData R);
  error : option string;
  validationErrors : ValidationErrors;
  isGenerating : bool;
  savedPatterns : list SavedPattern;
  pendingTimeout : option (LampshadeDimensions R)
}.

(** The state once the mount effect has read [stored] from local storage
    ([[]] when there is nothing to read). *)
Definition initialState (stored : list SavedPattern) : AppState :=
  mkState initialDimensions None None noErrors false stored None.

Definition handleSavePattern (now : Z) (dimensionsToSave : LampshadeDimensions R)
           (s : AppState) : AppState :=
  let newPattern := mkSaved dimensionsToSave now in
  let newPatterns := savedPatterns s ++ [newPattern] in
  mkState (dimensions s) (patternData s) (error s) (validationErrors s)
    (isGenerating s) newPatterns (pendingTimeout s).

Definition handleLoadPattern (i : Z) (s : AppState) : AppState :=
  match find (fun p => (id p =? i)%Z) (savedPatterns s) with
  | Some patternToLoad =>
      mkState (savedDimensions patternToLoad) None None noErrors
        (isGenerating s) (savedPatterns s) (pendingTimeout s)
  | None => s
  end.

Definition handleDeletePattern (i : Z) (s : AppState) : AppState :=
  let newPatterns := filter (fun p => negb (id p =? i)%Z) (savedPatterns s) in
  mkState (dimensions s) (patternData s) (error s) (validationErrors s)
    (isGenerating s) newPatterns (pendingTimeout s).

(** [handleGenerate] up to the call of [setTimeout]. *)
Definition handleGenerate (s : AppState) : AppState :=
  let newErrors := validate (dimensions s) in
  if hasErrors newErrors
  then mkState (dimensions s) None None newErrors
         (isGenerating s) (savedPatterns s) (pendingTimeout s)
  else mkState (dimensions s) None None noErrors
         true (savedPatterns s) (Some (dimensions s)).

(** [handleSave] of [PatternPreview]: [onSavePattern(patternData.dimensions)]
    when there is a pattern. *)
Definition handleSave (now : Z) (s : AppState) : AppState :=
  match patternData s with
  | Some pd => handleSavePattern now (PatternData_dimensions pd) s
  | None => s
  end.

Definition setDimensions (f : LampshadeDimensions R -> LampshadeDimensions R)
           (s : AppState) : AppState :=
  mkState (f (dimensions s)) (patternData s) (error s) (validationErrors s)
    (isGenerating s) (savedPatterns s) (pendingTimeout s).

Inductive Event : Type :=
| Form (e : InputForm.FormEvent)
| Generate
| Timeout
| Save (now : Z)
| Load (i : Z)
| Delete (i : Z).

(** What can happen in a state: the form's rendered inputs; the Generate
    button, disabled while [isGenerating]; the pending timer; the Save button,
    rendered with the pattern (no error shown); Load and Delete, one pair of
    buttons per saved pattern.  Each event is handled on the state of the
    latest render; writing the saved patterns to local storage does not
    change the state and is left out. *)
Definition possible (s : AppState) (e : Event) : Prop :=
  match e with
  | Form fe => InputForm.rendered (dimensions s) fe
  | Generate => isGenerating s = false
  | Timeout => pendingTimeout s <> None
  | Save _ => patternData s <> None /\ error s = None
  | Load i | Delete i => exists p, In p (savedPatterns s) /\ id p = i
  end.

(** The callback of [setTimeout] calls the calculator inside [try] and only
    looks at whether it returned or threw.  The calculator is a parameter
    here: the state logic is the same for [calculatePatternData] over the
    reals and for the program's run on binary64, where rounding can make the
    call throw on dimensions that passed validation. *)
Section Calculator.
Variable calculate : LampshadeDimensions R -> Result (PatternData R).

(** The callback of [setTimeout], 50 ms later, on the dimensions it captured. *)
Definition generationTimeout (s : AppState) : AppState :=
  match pendingTimeout s with
  | None => s
  | Some captured =>
      match calculate captured with
      | Ok data =>
          mkState (dimensions s) (Some data) (error s) (validationErrors s)
            false (savedPatterns s) None
      | Throw message =>
          mkState (dimensions s) (patternData s) (Some message) (validationErrors s)
            false (savedPatterns s) None
      end
  end.

Definition step (s : AppState) (e : Event) : AppState :=
  match e with
  | Form fe => setDimensions (InputForm.applyEvent fe) s
  | Generate => handleGenerate s
  | Timeout => generationTimeout s
  | Save now => handleSave now s
  | Load i => handleLoadPattern i s
  | Delete i => handleDeletePattern i s
  end.

Inductive reachable (stored : list SavedPattern) : AppState -> Prop :=
| reachable_init : reachable stored (initialState stored)
| reachable_step s e :
    reachable stored s -> possible s e -> reachable stored (step s e).
End Calculator.

(** What the state logic needs of a calculator, and the source's has: a
    returned pattern echoes the dimensions it was computed from
    ([dimensions: dims] in both [return]s). *)
Definition echoes (calculate : LampshadeDimensions R -> Result (PatternData R)) : Prop :=
  forall d p, calculate d = Ok p -> PatternData_dimensions p = d.

(** It returns the drum rectangle exactly when the two diameters are equal
    (the test of line 4). *)
Definition drumWhenEqual
           (calculate : LampshadeDimensions R -> Result (PatternData R)) : Prop :=
  forall d p, calculate d = Ok p ->
              (isDrum p = true <-> topDiameter d = bottomDiameter d).

(** A drum has equal diameters. *)
Definition drumEqual (d : LampshadeDimensions R) : Prop :=
  shape d = drum -> topDiameter d = bottomDiameter d.

End App.

(** What holds of every state the application can reach. *)
Definition appInvariant
           (calculate : LampshadeDimensions R -> Result (PatternData R))
           (s : App.AppState) : Prop :=
  App.drumEqual (App.dimensions s) /\
  Forall (fun p => App.drumEqual (App.savedDimensions p)) (App.savedPatterns s) /\
  (forall captured, App.pendingTimeout s = Some captured ->
     App.drumEqual captured /\
     App.hasErrors (App.validate captured) = false /\
     App.patternData s = None /\ App.error s = None /\
     App.validationErrors s = App.noErrors) /\
  (forall pd, App.patternData s = Some pd ->
     calculate (PatternData_dimensions pd) = Ok pd /\
     App.drumEqual (PatternData_dimensions pd) /\
     App.hasErrors (App.validate (PatternData_dimensions pd)) = false) /\
  (App.patternData s = None \/ App.error s = None) /\
  (App.hasErrors (App.validationErrors s) = true ->
     App.patternData s = None /\ App.error s = None) /\
  (App.isGenerating s = true <-> App.pendingTimeout s <> None).

(** The binary64 value of the literal [1e-9], as a real number. *)
Definition height_1e_9 : R := 4835703278458517 / 2 ^ 82.

(** The calculator as the program runs it, as far as this file establishes
    it: at top 20, bottom 26, height [1e-9] the binary64 computation throws
    the angle message (the quotient [(2 * Math.PI * 13) / 13] rounds above
    [2 * Math.PI]); elsewhere the exact calculator stands in. *)
Definition calculateAsRun (d : LampshadeDimensions R) : Result (PatternData R) :=
  if Req_dec_T (topDiameter d) 20 then
    if Req_dec_T (bottomDiameter d) 26 then
      if Req_dec_T (height d) height_1e_9 then Throw AngleOverflow
      else calculatePatternData d
    else calculatePatternData d
  else calculatePatternData d.

(** The form after typing bottom 26 and height [1e-9] into the initial
    cone, then Generate, then the timer. *)
Definition nearlyFlatRun : App.AppState :=
  App.step calculateAsRun
    (App.step calculateAsRun
       (App.step calculateAsRun
          (App.step calculateAsRun (App.initialState [])
             (App.Form (InputForm.Change InputForm.bottomDiameterName (Some 26))))
          (App.Form (InputForm.Change InputForm.heightName (Some height_1e_9))))
       App.Generate)
    App.Timeout.

(** A stored drum whose diameters differ, as local storage may hold one. *)
Definition unevenDrum : App.SavedPattern :=
  App.mkSaved (mkDims 10 20 15 unit_cm drum) 3.

(** ** The grid of the tiler, in binary64

    Lines 62 to 74 of [PatternPreview.tsx] on the program's numbers: the
    sizes in pixels are rounded products and quotients, and [Math.ceil] is
    taken of the rounded quotient. *)
Module Tiler64.
Import PrimFloat.
Local Open Scope float_scope.

(** [Math.ceil] of a finite binary64 number, as the integer it denotes
    ([-0] reads as 0).  NaN and the infinities, which [Math.ceil] returns
    unchanged, give [None]. *)
Definition Math_ceil (x : float) : option Z :=
  match Prim2SF x with
  | S754_zero _ => Some 0%Z
  | S754_finite sign m e =>
      Some (match e with
            | Zneg k =>
                let d := Z.pow_pos 2 k in
                if sign then (- (Zpos m / d))%Z else ((Zpos m + d - 1) / d)%Z
            | _ =>
                if sign then (- (Zpos m * 2 ^ e))%Z else (Zpos m * 2 ^ e)%Z
            end)
  | _ => None
  end.

Definition PPI : float := 96.

(** The hexadecimal literal is the binary64 value of [2.54]. *)
Definition convertToPx (value : float) (u : Unit) : float :=
  match u with
  | unit_in => value * PPI
  | unit_cm => (value / 0x1.451eb851eb852p+1) * PPI
  | unit_px => value
  end.

(** [PAPER_SIZES]: the hexadecimal literals are the binary64 values of
    [8.27] and [11.69]. *)
Definition PAPER_SIZES (paperSize : PaperSize) : float * float :=
  match paperSize with
  | A4 => (0x1.08a3d70a3d70ap+3, 0x1.76147ae147ae1p+3)
  | Letter => (8.5, 11)
  end.

Definition PRINT_MARGIN_IN : float := 0.5.

Definition printableWidthPx (paperSize : PaperSize) : float :=
  (fst (PAPER_SIZES paperSize) - 2 * PRINT_MARGIN_IN) * PPI.

Definition printableHeightPx (paperSize : PaperSize) : float :=
  (snd (PAPER_SIZES paperSize) - 2 * PRINT_MARGIN_IN) * PPI.

Definition gridCols (patternWidthPx printableWidthPx : float) : option Z :=
  Math_ceil (patternWidthPx / printableWidthPx).

Definition gridRows (patternHeightPx printableHeightPx : float) : option Z :=
  Math_ceil (patternHeightPx / printableHeightPx).

(** A drum of diameter [2^-1072] and height 10, in pixels. *)
Definition tinyDrum : LampshadeDimensions float :=
  mkDims 0x1p-1072 0x1p-1072 10 unit_px drum.

(** A pattern 123.59 inches wide: the hexadecimal literal is the binary64
    value of [123.59]. *)
Definition wideWidth : float := 0x1.ee5c28f5c28f6p+6.

End Tiler64.

(** * Properties *)

Unset Implicit Arguments.

(** ** Shared facts about the cone branch *)

Lemma messages_differ : InvalidTaper <> AngleOverflow.
Proof. discriminate. Qed.

Section ConeFacts.
Variable dims : LampshadeDimensions R.
Hypothesis taper : topDiameter dims < bottomDiameter dims.

Lemma radii_gap_pos : 0 < rBottom dims - rTop dims.
Proof. unfold rBottom, rTop; lra. Qed.

Lemma slantHeight_sqr :
  slantHeight dims * slantHeight dims =
  height dims ^ 2 + (rBottom dims - rTop dims) ^ 2.
Proof.
  unfold slantHeight, verticalHeight. apply sqrt_sqrt.
  generalize (pow2_ge_0 (height dims)) (pow2_ge_0 (rBottom dims - rTop dims)); lra.
Qed.

Lemma slantHeight_ge_gap : rBottom dims - rTop dims <= slantHeight dims.
Proof.
  pose proof radii_gap_pos as Hg.
  rewrite <- (sqrt_pow2 (rBottom dims - rTop dims)) at 1 by lra.
  unfold slantHeight. apply sqrt_le_1_alt.
  generalize (pow2_ge_0 (verticalHeight dims)); lra.
Qed.

Lemma slantHeight_pos : 0 < slantHeight dims.
Proof. pose proof radii_gap_pos; pose proof slantHeight_ge_gap; lra. Qed.

Lemma slantHeight_gt_gap :
  height dims <> 0 -> rBottom dims - rTop dims < slantHeight dims.
Proof.
  intros Hh. pose proof radii_gap_pos as Hg.
  rewrite <- (sqrt_pow2 (rBottom dims - rTop dims)) at 1 by lra.
  unfold slantHeight, verticalHeight. apply sqrt_lt_1_alt.
  assert (0 < height dims ^ 2) by nra.
  generalize (pow2_ge_0 (rBottom dims - rTop dims)); lra.
Qed.

Lemma radii_difference : LBottom dims - LTop dims = slantHeight dims.
Proof.
  pose proof radii_gap_pos. unfold LBottom, LTop. field. lra.
Qed.

Lemma angle_closed_form :
  bottomDiameter dims <> 0 ->
  angle dims = 2 * PI * (rBottom dims - rTop dims) / slantHeight dims.
Proof.
  intros Hb. pose proof radii_gap_pos. pose proof slantHeight_pos.
  assert (rBottom dims <> 0) by (unfold rBottom; lra).
  unfold angle, LBottom. field. repeat split; lra.
Qed.

Lemma angle_le_full_turn :
  bottomDiameter dims <> 0 -> angle dims <= 2 * PI.
Proof.
  intros Hnz.
  pose proof radii_gap_pos as Hg. pose proof slantHeight_pos as Hs.
  pose proof slantHeight_ge_gap as Hle. pose proof PI_RGT_0 as Hpi.
  rewrite (angle_closed_form Hnz).
  apply Rle_trans with (2 * PI * slantHeight dims / slantHeight dims).
  - unfold Rdiv. apply Rmult_le_compat_r.
    + left. apply Rinv_0_lt_compat; exact Hs.
    + apply Rmult_le_compat_l; lra.
  - right. field. lra.
Qed.

Lemma angle_lt_full_turn :
  height dims <> 0 -> bottomDiameter dims <> 0 -> angle dims < 2 * PI.
Proof.
  intros Hh Hnz.
  pose proof radii_gap_pos as Hg. pose proof slantHeight_pos as Hs.
  pose proof (slantHeight_gt_gap Hh) as Hlt. pose proof PI_RGT_0 as Hpi.
  rewrite (angle_closed_form Hnz).
  apply Rlt_le_trans with (2 * PI * slantHeight dims / slantHeight dims).
  - unfold Rdiv. apply Rmult_lt_compat_r.
    + apply Rinv_0_lt_compat; exact Hs.
    + apply Rmult_lt_compat_l; lra.
  - right. field. lra.
Qed.

Lemma angle_pos : 0 < topDiameter dims -> 0 < angle dims.
Proof.
  intros Ht. pose proof radii_gap_pos as Hg. pose proof slantHeight_pos as Hs.
  pose proof PI_RGT_0 as Hpi.
  rewrite angle_closed_form by lra.
  apply Rdiv_lt_0_compat; [ | exact Hs].
  apply Rmult_lt_0_compat; lra.
Qed.

(** On a tapered input the call reaches the end of the cone branch. *)
Lemma cone_branch_returns :
  bottomDiameter dims <> 0 ->
  calculatePatternData dims =
  Ok (ConePatternData (pathD dims) (coneViewBox dims)
        (vbWidth (coneViewBox dims)) (vbHeight (coneViewBox dims)) dims
        (slantHeight dims)
        (PI * topDiameter dims) (PI * bottomDiameter dims)).
Proof.
  intros Hnz.
  pose proof radii_gap_pos as Hg. pose proof (angle_le_full_turn Hnz) as Ha.
  unfold calculatePatternData.
  destruct (Req_dec_T (topDiameter dims) (bottomDiameter dims)) as [E | _]; [lra | ].
  destruct (Rle_dec (rBottom dims) (rTop dims)) as [L | _]; [lra | ].
  destruct (Rgt_dec (angle dims) (2 * PI)) as [G | _]; [lra | ].
  reflexivity.
Qed.
End ConeFacts.

(** ** Drum input (C5) *)

Lemma drum_branch_returns (dims : LampshadeDimensions R) :
  topDiameter dims = bottomDiameter dims ->
  calculatePatternData dims =
  Ok (DrumPatternData (PI * bottomDiameter dims)
        (mkViewBox 0 0 (PI * bottomDiameter dims) (height dims))
        (PI * bottomDiameter dims) (height dims) dims).
Proof.
  intros E. unfold calculatePatternData.
  destruct (Req_dec_T (topDiameter dims) (bottomDiameter dims)) as [_ | N];
    [reflexivity | contradiction].
Qed.

(** C5. For every drum input, with both diameters equal to [d] and height
    [h] (in particular for all positive [d] and [h]), [calculatePatternData]
    returns the drum pattern: a rectangle of width exactly [PI * d] and height
    exactly [h], whose [viewBox] is [0 0 width height]. *)
Theorem drum_is_rectangle :
  forall (d h : R) (u : Unit) (s : Shape),
    calculatePatternData (mkDims d d h u s) =
    Ok (DrumPatternData (PI * d) (mkViewBox 0 0 (PI * d) h) (PI * d) h
          (mkDims d d h u s)).
Proof.
  intros d h u s. apply (drum_branch_returns (mkDims d d h u s)). reflexivity.
Qed.

Lemma drum_width_height :
  forall dims p,
    topDiameter dims = bottomDiameter dims ->
    calculatePatternData dims = Ok p ->
    isDrum p = true /\
    PatternData_width p = PI * bottomDiameter dims /\
    PatternData_height p = height dims /\
    PatternData_viewBox p = mkViewBox 0 0 (PatternData_width p) (PatternData_height p).
Proof.
  intros dims p E. rewrite (drum_branch_returns dims E).
  intros H; inversion H; subst; simpl. auto.
Qed.

(** On binary64 the drum branch is taken whenever the two diameters compare
    equal, and the width is the rounded product [Math.PI * d]. *)
Lemma drum_in_binary64 (d h : PrimFloat.float) (u : Unit) (s : Shape) :
  (d =? d)%float = true ->
  Binary64.calculatePatternData_branch (mkDims d d h u s) =
  Binary64.DrumReturn (Binary64.Math_PI * d)%float (Binary64.Math_PI * d)%float h.
Proof.
  intros E. unfold Binary64.calculatePatternData_branch. simpl. rewrite E.
  reflexivity.
Qed.

(** Scenario A: a drum of diameter 30 and height 20 is 94.24777960769379 wide
    on binary64. *)
Lemma scenario_A_binary64 :
  Binary64.calculatePatternData_branch (Binary64.dimsOf 30 30 20 drum) =
  Binary64.DrumReturn 0x1.78fdb9effea46p+6 0x1.78fdb9effea46p+6 20.
Proof. vm_compute. reflexivity. Qed.

(** ** Radii of the sector (C6) *)




(** ** The taper guard (C2) *)

Lemma taper_guard_throws (dims : LampshadeDimensions R) :
  bottomDiameter dims < topDiameter dims ->
  calculatePatternData dims = Throw InvalidTaper.
Proof.
  intros H. unfold calculatePatternData.
  destruct (Req_dec_T (topDiameter dims) (bottomDiameter dims)) as [E | _]; [lra | ].
  destruct (Rle_dec (rBottom dims) (rTop dims)) as [_ | N]; [reflexivity | ].
  exfalso. apply N. unfold rBottom, rTop. lra.
Qed.

(** C2, as the code has it. Whatever the [shape] field says, an input whose
    bottom diameter is strictly smaller than its top diameter is rejected with
    the [InvalidTaper] message; so is every tapered input
    ([topDiameter < bottomDiameter]) once its two diameters are swapped.  An
    input with equal diameters is not rejected: it takes the drum branch. *)
Theorem narrower_bottom_is_rejected :
  forall dims : LampshadeDimensions R,
    (bottomDiameter dims < topDiameter dims ->
     calculatePatternData dims = Throw InvalidTaper) /\
    (topDiameter dims < bottomDiameter dims ->
     calculatePatternData (swapDiameters dims) = Throw InvalidTaper) /\
    (bottomDiameter dims = topDiameter dims ->
     exists p, calculatePatternData dims = Ok p /\ isDrum p = true).
Proof.
  intros dims. repeat split.
  - apply taper_guard_throws.
  - intros H. apply taper_guard_throws. simpl. exact H.
  - intros E. eexists. split.
    + apply drum_branch_returns. symmetry; exact E.
    + reflexivity.
Qed.

Lemma narrower_bottom_is_rejected_witness :
  calculatePatternData (dimsOf 30 20 20 cone) = Throw InvalidTaper /\
  calculatePatternData (swapDiameters initialDimensions) = Throw InvalidTaper.
Proof.
  split.
  - apply (proj1 (narrower_bottom_is_rejected (dimsOf 30 20 20 cone))).
    simpl. lra.
  - apply (proj1 (proj2 (narrower_bottom_is_rejected initialDimensions))).
    simpl. lra.
Defined.

(** Scenario C on binary64: top 30, bottom 20 is rejected; equal diameters
    with shape [cone] are not. *)
Lemma scenario_C_binary64 :
  Binary64.calculatePatternData_branch (Binary64.dimsOf 30 20 20 cone) =
  Binary64.Thrown InvalidTaper /\
  Binary64.calculatePatternData_branch (Binary64.dimsOf 20 20 20 cone) =
  Binary64.DrumReturn 0x1.f6a7a2955385ep+5 0x1.f6a7a2955385ep+5 20.
Proof. vm_compute. split; reflexivity. Qed.

(** C2 as stated fails when the two diameters are equal: the first test of
    the function sends such an input to the drum branch before the [shape]
    field or the taper guard is looked at, so a cone with
    [bottomDiameter <= topDiameter] gets a rectangle, not [InvalidTaper]. *)
Lemma equal_diameters_cone_not_rejected :
  let dims := dimsOf 20 20 20 cone in
  shape dims = cone /\
  bottomDiameter dims <= topDiameter dims /\
  calculatePatternData dims <> Throw InvalidTaper /\
  calculatePatternData dims =
  Ok (DrumPatternData (PI * 20) (mkViewBox 0 0 (PI * 20) 20) (PI * 20) 20 dims).
Proof.
  cbv zeta. rewrite drum_branch_returns by reflexivity. simpl.
  repeat split; try lra; discriminate.
Qed.

(** ** The angle guard (C3, C4) *)

(** C4, in exact arithmetic. For every input with positive height and
    [bottomDiameter > topDiameter] (the bottom diameter not zero, as the
    division by [LBottom] needs), the sector angle [2 PI rBottom / LBottom]
    equals [2 PI (rBottom - rTop) / slantHeight]; the slant height is strictly
    larger than [rBottom - rTop], so the angle is strictly below [2 PI], the
    angle guard does not fire and the cone pattern is returned. *)
Theorem angle_below_full_turn :
  forall dims : LampshadeDimensions R,
    0 < height dims ->
    topDiameter dims < bottomDiameter dims ->
    bottomDiameter dims <> 0 ->
    angle dims = 2 * PI * (rBottom dims - rTop dims) / slantHeight dims /\
    rBottom dims - rTop dims < slantHeight dims /\
    angle dims < 2 * PI /\
    calculatePatternData dims <> Throw AngleOverflow /\
    exists p, calculatePatternData dims = Ok p /\ isDrum p = false.
Proof.
  intros dims Hh Htb Hnz.
  assert (Hh0 : height dims <> 0) by lra.
  repeat split.
  - exact (angle_closed_form dims Htb Hnz).
  - exact (slantHeight_gt_gap dims Htb Hh0).
  - exact (angle_lt_full_turn dims Htb Hh0 Hnz).
  - rewrite (cone_branch_returns dims Htb Hnz). discriminate.
  - eexists. split; [exact (cone_branch_returns dims Htb Hnz) | reflexivity].
Qed.

Lemma angle_below_full_turn_witness :
  angle initialDimensions < 2 * PI /\
  calculatePatternData initialDimensions <> Throw AngleOverflow.
Proof.
  assert (H : 0 < height initialDimensions /\
              topDiameter initialDimensions < bottomDiameter initialDimensions /\
              bottomDiameter initialDimensions <> 0)
    by (unfold initialDimensions, dimsOf; simpl; repeat split; lra).
  destruct H as (H1 & H2 & H3).
  destruct (angle_below_full_turn initialDimensions H1 H2 H3) as (_ & _ & A & B & _).
  split; assumption.
Defined.

(** In binary64 the same guard can fire on such an input.  For
    [topDiameter = 20], [bottomDiameter = 26], [height = 1e-9] the square of
    the height is lost in [9 + 1e-18], so [slantHeight] is exactly
    [rBottom - rTop = 3] and [LBottom] is exactly [13]; the numerator
    [2 * Math.PI * 13] rounds to a value whose quotient by 13 rounds to the
    binary64 number just above [2 * Math.PI], and the function throws.  (The
    two squares are [1e-18], up to rounding, and exactly [9]; any [pow] gives
    the same sum.)

    C4 as stated fails on the program's numbers: a positive height and
    [bottomDiameter > topDiameter], and the angle guard throws. *)
Lemma angle_guard_reached_in_binary64 :
  let dims := Binary64.nearlyFlat in
  (0 <? height dims)%float = true /\
  (topDiameter dims <? bottomDiameter dims)%float = true /\
  Binary64.slantHeight dims = 3%float /\
  Binary64.LBottom dims = 13%float /\
  (2 * Binary64.Math_PI)%float = 0x1.921fb54442d18p+2%float /\
  Binary64.angle dims = 0x1.921fb54442d19p+2%float /\
  (2 * Binary64.Math_PI <? Binary64.angle dims)%float = true /\
  Binary64.calculatePatternData_branch dims = Binary64.Thrown AngleOverflow.
Proof. vm_compute. repeat split. Qed.

Lemma angle_guard_iff (dims : LampshadeDimensions PrimFloat.float) :
  Binary64.calculatePatternData_branch dims = Binary64.Thrown AngleOverflow <->
  (topDiameter dims =? bottomDiameter dims)%float = false /\
  (Binary64.rBottom dims <=? Binary64.rTop dims)%float = false /\
  (2 * Binary64.Math_PI <? Binary64.angle dims)%float = true.
Proof.
  unfold Binary64.calculatePatternData_branch.
  destruct (topDiameter dims =? bottomDiameter dims)%float.
  - split; [discriminate | intros (H & _); discriminate].
  - destruct (Binary64.rBottom dims <=? Binary64.rTop dims)%float.
    + split; [ | intros (_ & H & _); discriminate].
      intros H. exfalso. apply messages_differ.
      exact (f_equal (fun b => match b with
                               | Binary64.Thrown m => m
                               | _ => EmptyString
                               end) H).
    + destruct (2 * Binary64.Math_PI <? Binary64.angle dims)%float.
      * split; auto.
      * split; [discriminate | intros (_ & _ & H); discriminate].
Qed.

(** C3, the guard itself, on binary64. The function throws the
    [AngleOverflow] message exactly when the diameters differ, [rBottom] is
    not [<= rTop] and the computed angle exceeds [2 * Math.PI].  The input
    [1, 100, 0.01] is not such a case: its computed angle, 6.2831851789644011,
    is below [2 * Math.PI] and control goes on to build the sector. *)
Theorem angle_overflow_iff :
  (forall dims : LampshadeDimensions PrimFloat.float,
      Binary64.calculatePatternData_branch dims = Binary64.Thrown AngleOverflow <->
      (topDiameter dims =? bottomDiameter dims)%float = false /\
      (Binary64.rBottom dims <=? Binary64.rTop dims)%float = false /\
      (2 * Binary64.Math_PI <? Binary64.angle dims)%float = true) /\
  Binary64.calculatePatternData_branch Binary64.extremeRatio =
  Binary64.SectorPath (Binary64.slantHeight Binary64.extremeRatio)
    (Binary64.LTop Binary64.extremeRatio) (Binary64.LBottom Binary64.extremeRatio)
    0x1.921fb4ba974bfp+2%float.
Proof.
  split; [exact angle_guard_iff | vm_compute; reflexivity].
Qed.

Lemma angle_overflow_iff_witness :
  Binary64.calculatePatternData_branch Binary64.nearlyFlat = Binary64.Thrown AngleOverflow.
Proof.
  apply (proj2 (proj1 angle_overflow_iff Binary64.nearlyFlat)).
  vm_compute. repeat split.
Defined.

(** C3 as stated fails on its own example: for [1, 100, 0.01] the angle is
    below a full turn, in exact arithmetic and in binary64 alike, and the
    call goes on to build the sector instead of throwing [AngleOverflow]. *)
Lemma extreme_ratio_not_rejected :
  angle extremeRatio < 2 * PI /\
  calculatePatternData extremeRatio <> Throw AngleOverflow /\
  (exists p, calculatePatternData extremeRatio = Ok p) /\
  (Binary64.angle Binary64.extremeRatio <? 2 * Binary64.Math_PI)%float = true /\
  Binary64.calculatePatternData_branch Binary64.extremeRatio <>
  Binary64.Thrown AngleOverflow.
Proof.
  assert (H : height extremeRatio <> 0 /\
              topDiameter extremeRatio < bottomDiameter extremeRatio /\
              bottomDiameter extremeRatio <> 0)
    by (unfold extremeRatio, dimsOf; simpl; repeat split; lra).
  destruct H as (H1 & H2 & H3).
  pose proof (cone_branch_returns extremeRatio H2 H3) as C.
  repeat split.
  - exact (angle_lt_full_turn extremeRatio H2 H1 H3).
  - rewrite C. discriminate.
  - eexists; exact C.
  - vm_compute. discriminate.
Qed.

(** ** Scenario B: top 20, bottom 30, height 20 (C7) *)

Lemma PI_bounds : 3.14159 < PI < 3.1416.
Proof.
  destruct (PI_2_3_7_ineq 2) as [Hlo Hhi].
  unfold sum_f_R0, tg_alt, PI_2_3_7_tg, Ratan_seq in Hlo, Hhi.
  simpl in Hlo, Hhi.
  split; lra.
Qed.

Lemma sqrt_between (x lo hi : R) :
  0 <= lo -> 0 <= hi -> lo * lo < x -> x < hi * hi -> lo < sqrt x < hi.
Proof.
  intros Hlo Hhi H1 H2.
  assert (Hx : 0 <= x) by nra.
  split.
  - rewrite <- (sqrt_square lo) by exact Hlo. apply sqrt_lt_1_alt. nra.
  - rewrite <- (sqrt_square hi) by exact Hhi. apply sqrt_lt_1_alt. nra.
Qed.

Section ScenarioB.
Let d := initialDimensions.

Lemma scenarioB_slantHeight : slantHeight d = sqrt 425.
Proof.
  unfold slantHeight, verticalHeight, rBottom, rTop, d, initialDimensions, dimsOf.
  simpl. f_equal. lra.
Qed.

Lemma scenarioB_slant_bounds : 20.6155 < slantHeight d < 20.6156.
Proof. rewrite scenarioB_slantHeight. apply sqrt_between; lra. Qed.

Lemma scenarioB_LBottom : LBottom d = 3 * slantHeight d.
Proof.
  unfold LBottom. unfold rBottom, rTop, d, initialDimensions, dimsOf. simpl. field.
Qed.

Lemma scenarioB_LTop : LTop d = 2 * slantHeight d.
Proof.
  unfold LTop. unfold rBottom, rTop, d, initialDimensions, dimsOf. simpl. field.
Qed.

Lemma scenarioB_angle : angle d * slantHeight d = 10 * PI.
Proof.
  pose proof scenarioB_slant_bounds as Hs.
  unfold angle. rewrite scenarioB_LBottom.
  replace (rBottom d) with 15
    by (unfold rBottom, d, initialDimensions, dimsOf; simpl; lra).
  field. lra.
Qed.

Lemma scenarioB_angle_bounds : 1.5238 < angle d < 1.5240.
Proof.
  pose proof scenarioB_slant_bounds as Hs. pose proof PI_bounds as Hp.
  pose proof scenarioB_angle as Ha.
  split.
  - apply Rnot_le_lt. intros Hle.
    assert (angle d * slantHeight d <= 1.5238 * 20.6156) by
      (apply Rle_trans with (1.5238 * slantHeight d);
       [apply Rmult_le_compat_r; lra | apply Rmult_le_compat_l; lra]).
    lra.
  - apply Rnot_le_lt. intros Hge.
    assert (1.5240 * 20.6155 <= angle d * slantHeight d) by
      (apply Rle_trans with (1.5240 * slantHeight d);
       [apply Rmult_le_compat_l; lra | apply Rmult_le_compat_r; lra]).
    lra.
Qed.
End ScenarioB.

(** C7, with the angle the code computes. For top 20, bottom 30, height 20
    the call succeeds with a cone pattern; [slantHeight] is 20.616,
    [LBottom] 61.85, [LTop] 41.23 and the sector angle 1.524 rad, each to the
    last digit shown, and the large-arc flag is 0. *)
Theorem scenario_B :
  let d := initialDimensions in
  calculatePatternData d =
    Ok (ConePatternData (pathD d) (coneViewBox d)
          (vbWidth (coneViewBox d)) (vbHeight (coneViewBox d)) d
          (slantHeight d) (PI * 20) (PI * 30)) /\
  Rabs (slantHeight d - 20.616) < 0.0005 /\
  Rabs (LBottom d - 61.85) < 0.005 /\
  Rabs (LTop d - 41.23) < 0.005 /\
  Rabs (angle d - 1.524) < 0.0005 /\
  largeArcFlag d = 0%Z.
Proof.
  cbv zeta.
  pose proof scenarioB_slant_bounds as Hs.
  pose proof scenarioB_angle_bounds as Ha.
  pose proof PI_bounds as Hp.
  repeat split.
  - apply cone_branch_returns; unfold initialDimensions, dimsOf; simpl; lra.
  - apply Rabs_def1; lra.
  - rewrite scenarioB_LBottom. apply Rabs_def1; lra.
  - rewrite scenarioB_LTop. apply Rabs_def1; lra.
  - apply Rabs_def1; lra.
  - unfold largeArcFlag.
    destruct (Rgt_dec (angle initialDimensions) PI) as [G | _]; [lra | reflexivity].
Qed.

(** C7 as stated has the angle twice too large: the computed angle is not
    within 1 rad of 3.048 (it is half of it, 1.524). *)
Lemma scenario_B_angle_is_not_3_048 :
  Rabs (angle initialDimensions - 3.048 / 2) < 0.0005 /\
  ~ Rabs (angle initialDimensions - 3.048) < 1.
Proof.
  pose proof scenarioB_angle_bounds as Ha.
  split.
  - apply Rabs_def1; lra.
  - intros H. apply Rabs_def2 in H. lra.
Qed.

(** The same scenario on binary64, the scalars the program computes:
    [slantHeight = 20.615528128088304], [LTop = 41.231056256176608],
    [LBottom = 61.846584384264908] and [angle = 1.5238962756959047]. *)
Lemma scenario_B_binary64 :
  Binary64.calculatePatternData_branch (Binary64.dimsOf 20 30 20 cone) =
  Binary64.SectorPath 0x1.49d93405be849p+4 0x1.49d93405be849p+5
    0x1.eec5ce089dc6dp+5 0x1.861e10fa9c303p+0.
Proof. vm_compute. reflexivity. Qed.

(** ** The bounding box (C1) *)

Lemma fold_Rmin_le_init (l : list R) (x : R) : fold_left Rmin l x <= x.
Proof.
  revert x. induction l as [ | y l IH]; intros x; simpl.
  - lra.
  - apply Rle_trans with (Rmin x y); [apply IH | apply Rmin_l].
Qed.

Lemma fold_Rmin_le_elem (l : list R) (x y : R) :
  In y l -> fold_left Rmin l x <= y.
Proof.
  revert x. induction l as [ | z l IH]; intros x Hin; simpl in *.
  - contradiction.
  - destruct Hin as [E | Hin].
    + subst z. apply Rle_trans with (Rmin x y); [apply fold_Rmin_le_init | apply Rmin_r].
    + apply IH; exact Hin.
Qed.

Lemma fold_Rmax_ge_init (l : list R) (x : R) : x <= fold_left Rmax l x.
Proof.
  revert x. induction l as [ | y l IH]; intros x; simpl.
  - lra.
  - apply Rle_trans with (Rmax x y); [apply Rmax_l | apply IH].
Qed.

Lemma fold_Rmax_ge_elem (l : list R) (x y : R) :
  In y l -> y <= fold_left Rmax l x.
Proof.
  revert x. induction l as [ | z l IH]; intros x Hin; simpl in *.
  - contradiction.
  - destruct Hin as [E | Hin].
    + subst z. apply Rle_trans with (Rmax x y); [apply Rmax_r | apply fold_Rmax_ge_init].
    + apply IH; exact Hin.
Qed.

Lemma fold_Rmin_In (l : list R) (x : R) : In (fold_left Rmin l x) (x :: l).
Proof.
  revert x. induction l as [ | y l IH]; intros x; simpl.
  - left; reflexivity.
  - destruct (IH (Rmin x y)) as [E | Hin].
    + rewrite <- E. unfold Rmin. destruct (Rle_dec x y); auto.
    + right; right; exact Hin.
Qed.

Lemma fold_Rmax_In (l : list R) (x : R) : In (fold_left Rmax l x) (x :: l).
Proof.
  revert x. induction l as [ | y l IH]; intros x; simpl.
  - left; reflexivity.
  - destruct (IH (Rmax x y)) as [E | Hin].
    + rewrite <- E. unfold Rmax. destruct (Rle_dec x y); auto.
    + right; right; exact Hin.
Qed.

(** [Math.min] answers the least element of a non-empty array, [Math.max]
    the greatest. *)
Lemma Math_min_spec (xs : list R) (m : R) :
  In m xs -> (forall x, In x xs -> m <= x) -> Math_min xs = m.
Proof.
  destruct xs as [ | x rest]; [contradiction | ]. intros Hin Hlow. simpl.
  apply Rle_antisym.
  - destruct Hin as [E | Hin].
    + subst m. apply fold_Rmin_le_init.
    + apply fold_Rmin_le_elem; exact Hin.
  - apply Hlow. apply fold_Rmin_In.
Qed.

Lemma Math_max_spec (xs : list R) (m : R) :
  In m xs -> (forall x, In x xs -> x <= m) -> Math_max xs = m.
Proof.
  destruct xs as [ | x rest]; [contradiction | ]. intros Hin Hup. simpl.
  apply Rle_antisym.
  - apply Hup. apply fold_Rmax_In.
  - destruct Hin as [E | Hin].
    + subst m. apply fold_Rmax_ge_init.
    + apply fold_Rmax_ge_elem; exact Hin.
Qed.

Lemma Math_max_le (xs : list R) (b : R) :
  xs <> [] -> (forall x, In x xs -> x <= b) -> Math_max xs <= b.
Proof.
  destruct xs as [ | x rest]; [intros N; contradiction N; reflexivity | ].
  intros _ Hup. simpl. apply Hup. apply fold_Rmax_In.
Qed.

Ltac in_list :=
  simpl; repeat (first [left; reflexivity | right]).

Section BoundingBox.
Variable dims : LampshadeDimensions R.
Hypothesis valid : validFrustum dims.

Let a := endAngle dims.
Let c := cos a.
Let s := sin a.

Lemma startAngle_opp : startAngle dims = - a.
Proof. unfold a, startAngle, endAngle. lra. Qed.

Lemma LTop_pos : 0 < LTop dims.
Proof.
  destruct valid as (Ht & Htb & Hh).
  pose proof (radii_gap_pos dims Htb). pose proof (slantHeight_pos dims Htb).
  unfold LTop. apply Rdiv_lt_0_compat; [ | assumption].
  apply Rmult_lt_0_compat; [assumption | unfold rTop; lra].
Qed.

Lemma LTop_lt_LBottom : LTop dims < LBottom dims.
Proof.
  destruct valid as (Ht & Htb & Hh).
  pose proof (radii_difference dims Htb). pose proof (slantHeight_pos dims Htb). lra.
Qed.

Lemma half_angle_range : 0 < a < PI.
Proof.
  destruct valid as (Ht & Htb & Hh).
  pose proof (angle_pos dims Htb Ht).
  assert (angle dims < 2 * PI) by (apply angle_lt_full_turn; lra).
  unfold a, endAngle. lra.
Qed.

Lemma corners :
  p1x dims = LTop dims * c /\ p1y dims = - (LTop dims * s) /\
  p2x dims = LBottom dims * c /\ p2y dims = - (LBottom dims * s) /\
  p3x dims = LBottom dims * c /\ p3y dims = LBottom dims * s /\
  p4x dims = LTop dims * c /\ p4y dims = LTop dims * s.
Proof.
  unfold p1x, p1y, p2x, p2y, p3x, p3y, p4x, p4y.
  rewrite startAngle_opp, cos_neg, sin_neg. fold a. fold c. fold s.
  repeat split; ring.
Qed.

(** The point of the outer arc at polar angle 0. *)
Lemma arc_midpoint_onOutline : onOutline dims (LBottom dims) 0.
Proof.
  pose proof half_angle_range as Ha.
  replace (LBottom dims) with (LBottom dims * cos 0) at 1 by (rewrite cos_0; ring).
  replace 0 with (LBottom dims * sin 0) at 2 by (rewrite sin_0; ring).
  apply on_outer_arc. rewrite startAngle_opp. fold a. lra.
Qed.

Section LessThanHalfTurn.
Hypothesis small : angle dims < PI.

Lemma half_angle_acute : 0 < a < PI / 2.
Proof. pose proof half_angle_range. unfold a, endAngle in *. lra. Qed.

Lemma cos_half_pos : 0 < c <= 1.
Proof.
  pose proof half_angle_acute as Ha. split.
  - apply cos_gt_0; lra.
  - apply COS_bound.
Qed.

Lemma sin_half_pos : 0 < s.
Proof. pose proof half_angle_acute as Ha. apply sin_gt_0; lra. Qed.

Lemma coneViewBox_small :
  coneViewBox dims =
  mkViewBox (LTop dims * c) (- (LBottom dims * s))
    (LBottom dims - LTop dims * c)
    (LBottom dims * s - - (LBottom dims * s)).
Proof.
  pose proof LTop_pos as H0. pose proof LTop_lt_LBottom as H1.
  pose proof cos_half_pos as Hc. pose proof sin_half_pos as Hs.
  destruct corners as (E1 & E2 & E3 & E4 & E5 & E6 & E7 & E8).
  assert (LTop dims * c <= LBottom dims * c) by (apply Rmult_le_compat_r; lra).
  assert (LBottom dims * c <= LBottom dims) by
    (rewrite <- (Rmult_1_r (LBottom dims)) at 2; apply Rmult_le_compat_l; lra).
  assert (LTop dims * s <= LBottom dims * s) by (apply Rmult_le_compat_r; lra).
  assert (0 < LTop dims * s) by (apply Rmult_lt_0_compat; lra).
  unfold coneViewBox, allX, allY.
  destruct (Rlt_dec (angle dims) PI) as [_ | N]; [ | contradiction].
  rewrite E1, E2, E3, E4, E5, E6, E7, E8.
  rewrite (Math_min_spec _ (LTop dims * c));
    [ | in_list | simpl; intros x Hx; intuition lra].
  rewrite (Math_max_spec _ (LBottom dims));
    [ | in_list | simpl; intros x Hx; intuition lra].
  rewrite (Math_min_spec _ (- (LBottom dims * s)));
    [ | in_list | simpl; intros x Hx; intuition lra].
  rewrite (Math_max_spec _ (LBottom dims * s));
    [ | in_list | simpl; intros x Hx; intuition lra].
  reflexivity.
Qed.

(** Every point at radius [r] between the two arcs and polar angle [phi]
    within the sector lies in the box. *)
Lemma sector_point_in_box (r phi : R) :
  LTop dims <= r <= LBottom dims -> - a <= phi <= a ->
  inViewBox (coneViewBox dims) (r * cos phi) (r * sin phi).
Proof.
  intros Hr Hphi.
  pose proof LTop_pos as H0. pose proof half_angle_acute as Ha.
  pose proof cos_half_pos as Hc. pose proof sin_half_pos as Hs.
  assert (Hcos : c <= cos phi).
  { unfold c. destruct (Rle_dec 0 phi) as [P | N].
    - apply cos_decr_1; lra.
    - rewrite <- (cos_neg phi). apply cos_decr_1; lra. }
  assert (Hsin1 : sin phi <= s) by (unfold s; apply sin_incr_1; lra).
  assert (Hsin2 : - s <= sin phi)
    by (unfold s; rewrite <- sin_neg; apply sin_incr_1; lra).
  pose proof (COS_bound phi) as Hcb.
  rewrite coneViewBox_small. unfold inViewBox. simpl.
  assert (LTop dims * c <= r * cos phi)
    by (apply Rmult_le_compat; lra).
  assert (r * cos phi <= LBottom dims)
    by (apply Rle_trans with (r * 1); [apply Rmult_le_compat_l; lra | lra]).
  assert (r * sin phi <= LBottom dims * s).
  { apply Rle_trans with (r * s); [apply Rmult_le_compat_l; lra | ].
    apply Rmult_le_compat_r; lra. }
  assert (- (LBottom dims * s) <= r * sin phi).
  { apply Rle_trans with (r * - s); [ | apply Rmult_le_compat_l; lra].
    replace (r * - s) with (- (r * s)) by ring.
    apply Ropp_le_contravar. apply Rmult_le_compat_r; lra. }
  repeat split; lra.
Qed.

(** For an angle below a half turn the [viewBox] is the bounding box of
    the outline: it contains the outline and touches it on all four
    sides (the right side at the midpoint of the outer arc). *)
Lemma viewBox_bounds_small_sector : boundsOutline dims (coneViewBox dims).
Proof.
  pose proof LTop_lt_LBottom as H1. pose proof half_angle_acute as Ha.
  intros x y Hxy. destruct Hxy as [r Hr | phi Hphi | r Hr | phi Hphi].
  - apply sector_point_in_box; [exact Hr | rewrite startAngle_opp; lra].
  - apply sector_point_in_box; [lra | rewrite startAngle_opp in Hphi; exact Hphi].
  - apply sector_point_in_box; [exact Hr | fold a; lra].
  - apply sector_point_in_box; [lra | rewrite startAngle_opp in Hphi; exact Hphi].
Qed.

Lemma viewBox_tight_small_sector : tightOnOutline dims (coneViewBox dims).
Proof.
  pose proof LTop_lt_LBottom as H1. pose proof half_angle_acute as Ha.
  rewrite coneViewBox_small. unfold tightOnOutline. simpl.
  repeat split.
  - exists (LTop dims * sin (endAngle dims)). fold a. unfold c.
    apply on_end_edge. lra.
  - exists 0. replace (LTop dims * c + (LBottom dims - LTop dims * c))
      with (LBottom dims) by ring.
    exact arc_midpoint_onOutline.
  - exists (LBottom dims * cos (startAngle dims)).
    replace (- (LBottom dims * s)) with (LBottom dims * sin (startAngle dims))
      by (rewrite startAngle_opp, sin_neg; unfold s; ring).
    apply on_start_edge. lra.
  - exists (LBottom dims * cos (endAngle dims)).
    replace (- (LBottom dims * s) + (LBottom dims * s - - (LBottom dims * s)))
      with (LBottom dims * sin (endAngle dims)) by (unfold s, a; ring).
    apply on_end_edge. lra.
Qed.
End LessThanHalfTurn.

Section AtLeastHalfTurn.
Hypothesis large : PI <= angle dims.

Lemma cos_half_nonpos : c <= 0.
Proof.
  pose proof half_angle_range as Ha.
  unfold c. apply cos_le_0; unfold a, endAngle in *; lra.
Qed.

(** From a half turn on, only the four corners enter the extremes, and
    all four have a non-positive abscissa: the right side of the box is
    at or left of the apex. *)
Lemma viewBox_right_side_large_sector :
  minX (coneViewBox dims) + vbWidth (coneViewBox dims) <= 0.
Proof.
  pose proof LTop_pos as H0. pose proof LTop_lt_LBottom as H1.
  pose proof cos_half_nonpos as Hc.
  destruct corners as (E1 & _ & E3 & _ & E5 & _ & E7 & _).
  assert (LTop dims * c <= 0) by nra.
  assert (LBottom dims * c <= 0) by nra.
  unfold coneViewBox. cbn [minX vbWidth].
  match goal with |- ?m + (?M - ?m) <= 0 => replace (m + (M - m)) with M by ring end.
  unfold allX.
  destruct (Rlt_dec (angle dims) PI) as [L | _]; [lra | ].
  rewrite E1, E3, E5, E7.
  apply Math_max_le; [discriminate | ].
  simpl. intros x Hx. intuition lra.
Qed.

(** The midpoint of the outer arc is on the outline and outside the box. *)
Lemma arc_midpoint_outside_large_sector :
  ~ inViewBox (coneViewBox dims) (LBottom dims) 0.
Proof.
  pose proof LTop_pos as H0. pose proof LTop_lt_LBottom as H1.
  pose proof viewBox_right_side_large_sector as Hr.
  unfold inViewBox. intros ((_ & Hx) & _). lra.
Qed.
End AtLeastHalfTurn.
End BoundingBox.

(** What the conditional [push] achieves, on every valid frustum input: below
    a half turn the [viewBox] is the bounding box of the outline; from a half
    turn on it is not, the outline leaves it on the right. *)
Lemma viewBox_by_angle :
  forall dims : LampshadeDimensions R,
    validFrustum dims ->
    (angle dims < PI ->
     boundsOutline dims (coneViewBox dims) /\ tightOnOutline dims (coneViewBox dims)) /\
    (PI <= angle dims -> ~ boundsOutline dims (coneViewBox dims)).
Proof.
  intros dims V. split.
  - intros Hs. split.
    + exact (viewBox_bounds_small_sector dims V Hs).
    + exact (viewBox_tight_small_sector dims V Hs).
  - intros Hl Hb.
    apply (arc_midpoint_outside_large_sector dims V Hl).
    apply Hb. exact (arc_midpoint_onOutline dims V).
Qed.

Lemma shallowShade_valid : validFrustum shallowShade.
Proof. unfold validFrustum, shallowShade, dimsOf; simpl; lra. Qed.

Lemma shallowShade_angle : PI <= angle shallowShade.
Proof.
  pose proof PI_RGT_0 as Hpi.
  assert (Hs : slantHeight shallowShade = sqrt 50).
  { unfold slantHeight, verticalHeight, rBottom, rTop, shallowShade, dimsOf.
    simpl. f_equal. lra. }
  assert (Hb : 7 < slantHeight shallowShade < 8)
    by (rewrite Hs; apply sqrt_between; lra).
  assert (Ha : angle shallowShade * slantHeight shallowShade = 10 * PI).
  { unfold angle, LBottom.
    replace (rBottom shallowShade) with 15
      by (unfold rBottom, shallowShade, dimsOf; simpl; lra).
    replace (rTop shallowShade) with 10
      by (unfold rTop, shallowShade, dimsOf; simpl; lra).
    field. lra. }
  apply Rnot_lt_le. intros Hlt.
  assert (angle shallowShade * slantHeight shallowShade <
          PI * slantHeight shallowShade)
    by (apply Rmult_lt_compat_r; lra).
  assert (PI * slantHeight shallowShade <= PI * 8)
    by (apply Rmult_le_compat_l; lra).
  lra.
Qed.

(** C1 at a sector of more than a half turn. For top 20, bottom 30, height 5
    (a valid frustum, angle at least [PI]) the call returns a cone pattern
    whose [viewBox] is not a bounding box of the outline: the midpoint of the
    outer arc, at [(LBottom, 0)], is on the outline and to the right of the
    box, whose right side is at or left of the apex. *)
Theorem viewBox_misses_outer_arc :
  let d := shallowShade in
  validFrustum d /\
  PI <= angle d /\
  exists p,
    calculatePatternData d = Ok p /\
    onOutline d (LBottom d) 0 /\
    minX (PatternData_viewBox p) + vbWidth (PatternData_viewBox p) <= 0 /\
    0 < LBottom d /\
    ~ inViewBox (PatternData_viewBox p) (LBottom d) 0 /\
    ~ boundsOutline d (PatternData_viewBox p).
Proof.
  cbv zeta.
  pose proof shallowShade_valid as V. pose proof shallowShade_angle as A.
  split; [exact V | ]. split; [exact A | ].
  destruct V as (Ht & Htb & Hh).
  eexists. split.
  - apply cone_branch_returns; [exact Htb | lra].
  - cbn [PatternData_viewBox].
    pose proof (LTop_pos shallowShade shallowShade_valid).
    pose proof (LTop_lt_LBottom shallowShade shallowShade_valid).
    repeat split.
    + exact (arc_midpoint_onOutline shallowShade shallowShade_valid).
    + exact (viewBox_right_side_large_sector shallowShade shallowShade_valid A).
    + lra.
    + exact (arc_midpoint_outside_large_sector shallowShade shallowShade_valid A).
    + exact (proj2 (viewBox_by_angle shallowShade shallowShade_valid) A).
Qed.

(** ** The page grid (C8) *)

Lemma Math_ceil_IZR (z : Z) : Math_ceil (IZR z) = z.
Proof. unfold Math_ceil. apply Zceil_eq. lra. Qed.

Lemma Math_ceil_covers (x w : R) :
  0 < w -> x <= IZR (Math_ceil (x / w)) * w.
Proof.
  intros Hw. destruct (Zceil_bound (x / w)) as [_ Hup]. unfold Math_ceil.
  replace x with (x / w * w) at 1 by (field; lra).
  apply Rmult_le_compat_r; lra.
Qed.

Lemma Math_ceil_least (x w : R) (n : Z) :
  0 < w -> x <= IZR n * w -> (Math_ceil (x / w) <= n)%Z.
Proof.
  intros Hw Hn. destruct (Zceil_bound (x / w)) as [Hlo _]. unfold Math_ceil.
  assert (x / w <= IZR n).
  { replace (IZR n) with (IZR n * w / w) by (field; lra).
    unfold Rdiv. apply Rmult_le_compat_r; [ | exact Hn].
    left; apply Rinv_0_lt_compat; exact Hw. }
  assert (IZR (Zceil (x / w)) < IZR n + 1) by lra.
  rewrite <- plus_IZR in H0. apply lt_IZR in H0. lia.
Qed.

Lemma Math_ceil_pos (x w : R) :
  0 < x -> 0 < w -> (1 <= Math_ceil (x / w))%Z.
Proof.
  intros Hx Hw. destruct (Zceil_bound (x / w)) as [_ Hup]. unfold Math_ceil.
  assert (0 < x / w) by (apply Rdiv_lt_0_compat; assumption).
  assert (IZR 0 < IZR (Zceil (x / w))) by (simpl; lra).
  apply lt_IZR in H0. lia.
Qed.

Lemma Math_ceil_same (w : R) : 0 < w -> Math_ceil (w / w) = 1%Z.
Proof.
  intros Hw. replace (w / w) with (IZR 1) by (simpl; field; lra).
  apply Math_ceil_IZR.
Qed.

(** C8, in exact arithmetic. For a pattern of positive width and height and
    a positive printable page size, the tiler's grid is [cols = ceil (patternWidth / printableWidth)]
    by [rows = ceil (patternHeight / printableHeight)]; it has at least one
    column and one row, [cols] pages side by side span the pattern width and
    [rows] pages its height, and no grid with fewer columns or fewer rows
    does; a pattern of exactly one page size gets [rows = cols = 1]. *)
Theorem grid_is_least_cover :
  forall patternWidthPx patternHeightPx printableWidthPx printableHeightPx : R,
    0 < patternWidthPx -> 0 < patternHeightPx ->
    0 < printableWidthPx -> 0 < printableHeightPx ->
    let cols := gridCols patternWidthPx printableWidthPx in
    let rows := gridRows patternHeightPx printableHeightPx in
    cols = Zceil (patternWidthPx / printableWidthPx) /\
    rows = Zceil (patternHeightPx / printableHeightPx) /\
    (1 <= cols)%Z /\ (1 <= rows)%Z /\
    patternWidthPx <= IZR cols * printableWidthPx /\
    patternHeightPx <= IZR rows * printableHeightPx /\
    (forall c : Z, patternWidthPx <= IZR c * printableWidthPx -> (cols <= c)%Z) /\
    (forall r : Z, patternHeightPx <= IZR r * printableHeightPx -> (rows <= r)%Z) /\
    (patternWidthPx = printableWidthPx -> cols = 1%Z) /\
    (patternHeightPx = printableHeightPx -> rows = 1%Z).
Proof.
  intros pw ph W H Hpw Hph HW HH. cbv zeta. unfold gridCols, gridRows.
  repeat split.
  - apply Math_ceil_pos; assumption.
  - apply Math_ceil_pos; assumption.
  - apply Math_ceil_covers; assumption.
  - apply Math_ceil_covers; assumption.
  - intros c Hc. apply Math_ceil_least; assumption.
  - intros r Hr. apply Math_ceil_least; assumption.
  - intros E. subst pw. apply Math_ceil_same; assumption.
  - intros E. subst ph. apply Math_ceil_same; assumption.
Qed.

Lemma grid_is_least_cover_witness :
  gridCols 150 100 = 2%Z /\ gridRows 100 100 = 1%Z.
Proof.
  assert (P150 : 0 < 150) by lra. assert (P100 : 0 < 100) by lra.
  destruct (grid_is_least_cover 150 100 100 100 P150 P100 P100 P100)
    as (_ & _ & C1 & _ & _ & _ & Cmin & _ & _ & Rone).
  split.
  - assert (gridCols 150 100 <= 2)%Z by (apply Cmin; simpl; lra).
    assert (~ (gridCols 150 100 <= 1)%Z).
    { intros Hle. destruct (Zceil_bound (150 / 100)) as [_ Hup].
      apply IZR_le in Hle. unfold gridCols, Math_ceil in Hle. simpl in Hle. lra. }
    lia.
  - apply Rone. reflexivity.
Defined.

(** C8 as stated fails on the program's numbers, where [Math.ceil] is taken
    of the rounded quotient.  A drum of diameter [2^-1072] pixels has the
    positive width [13 * 2^-1074]; divided by the printable width of A4 it
    rounds to 0, and the grid has no column.  A pattern 123.59 inches wide
    is [6522654819688120 * 2^-39] pixels wide, the printable width of A4 is
    [6138969242059407 * 2^-43] pixels, their quotient rounds to 17 and the
    grid has 17 columns, which end [2^-43] pixels before the pattern does. *)
Lemma grid_misses_the_pattern_in_binary64 :
  let W := Tiler64.printableWidthPx A4 in
  let tiny := (Binary64.Math_PI * bottomDiameter Tiler64.tinyDrum)%float in
  let wide := Tiler64.convertToPx Tiler64.wideWidth unit_in in
  (Binary64.calculatePatternData_branch Tiler64.tinyDrum =
   Binary64.DrumReturn tiny tiny 10%float /\
   (0 <? tiny)%float = true /\
   Tiler64.gridCols (Tiler64.convertToPx tiny unit_px) W = Some 0%Z) /\
  (Tiler64.gridCols wide W = Some 17%Z /\
   Prim2SF wide = S754_finite false 6522654819688120 (-39) /\
   Prim2SF W = S754_finite false 6138969242059407 (-43) /\
   (17 * 6138969242059407 < 6522654819688120 * 2 ^ 4)%Z).
Proof. vm_compute. repeat split. Qed.

(** ** Pages and join marks (C9, C10) *)

Lemma counter_In (n z : Z) : In z (counter n) <-> (0 <= z < n)%Z.
Proof.
  unfold counter. rewrite in_map_iff. split.
  - intros (k & E & Hk). apply in_seq in Hk. lia.
  - intros Hz. exists (Z.to_nat z). split; [lia | apply in_seq; lia].
Qed.

Lemma counter_length (n : Z) : List.length (counter n) = Z.to_nat n.
Proof. unfold counter. rewrite length_map, length_seq. reflexivity. Qed.

Lemma counter_nth (n : Z) (k : nat) :
  (k < Z.to_nat n)%nat -> nth_error (counter n) k = Some (Z.of_nat k).
Proof.
  intros Hk. unfold counter. rewrite nth_error_map.
  rewrite (nth_error_nth' _ 0%nat) by (rewrite length_seq; exact Hk).
  rewrite seq_nth by exact Hk. reflexivity.
Qed.

Lemma nth_error_flat_map_uniform {A B : Type} (f : A -> list B) (m : nat)
      (l : list A) (i j : nat) (x : A) :
  (forall y, List.length (f y) = m) ->
  nth_error l i = Some x -> (j < m)%nat ->
  nth_error (flat_map f l) (i * m + j) = nth_error (f x) j.
Proof.
  intros Hlen. revert i. induction l as [ | y l IH]; intros i Hi Hj.
  - destruct i; discriminate.
  - destruct i as [ | i]; simpl in *.
    + injection Hi as ->. apply nth_error_app1. rewrite Hlen. exact Hj.
    + rewrite nth_error_app2 by (rewrite Hlen; lia). rewrite Hlen.
      replace (m + i * m + j - m)%nat with (i * m + j)%nat by lia.
      apply IH; assumption.
Qed.

Lemma length_flat_map_uniform {A B : Type} (f : A -> list B) (m : nat) (l : list A) :
  (forall y, List.length (f y) = m) -> List.length (flat_map f l) = (List.length l * m)%nat.
Proof.
  intros Hlen. induction l as [ | y l IH]; simpl.
  - reflexivity.
  - rewrite length_app, Hlen, IH. reflexivity.
Qed.

Section PageFacts.
Variables (rows cols totalPages : Z).
Variables (printableWidthPx printableHeightPx : R).
Variable sizeLine : R * R * Unit.

Let page := createPage rows cols totalPages printableWidthPx printableHeightPx sizeLine.
Let pages := createPages rows cols totalPages printableWidthPx printableHeightPx sizeLine.

(** The loops build exactly one page for each tile of the grid. *)
Lemma createPages_In (p : PrintPage) :
  In p pages <->
  exists row col, (0 <= row < rows)%Z /\ (0 <= col < cols)%Z /\ p = page row col.
Proof.
  unfold pages, createPages. rewrite in_flat_map. split.
  - intros (row & Hrow & Hin). apply in_map_iff in Hin.
    destruct Hin as (col & E & Hcol).
    exists row, col. rewrite counter_In in Hrow, Hcol. auto.
  - intros (row & col & Hrow & Hcol & E). exists row. split.
    + apply counter_In; exact Hrow.
    + apply in_map_iff. exists col. split; [auto | apply counter_In; exact Hcol].
Qed.

Lemma createPages_length :
  List.length pages = (Z.to_nat rows * Z.to_nat cols)%nat.
Proof.
  unfold pages, createPages.
  rewrite (length_flat_map_uniform _ (Z.to_nat cols)).
  - rewrite counter_length. reflexivity.
  - intros y. rewrite length_map. apply counter_length.
Qed.

(** Row-major order: tile [(row, col)] is page number [row * cols + col + 1],
    at index [row * cols + col]. *)
Lemma createPages_nth (row col : Z) :
  (0 <= row < rows)%Z -> (0 <= col < cols)%Z ->
  nth_error pages (Z.to_nat (row * cols + col)) = Some (page row col).
Proof.
  intros Hrow Hcol. unfold pages, createPages.
  replace (Z.to_nat (row * cols + col))
    with (Z.to_nat row * Z.to_nat cols + Z.to_nat col)%nat
    by (rewrite Z2Nat.inj_add, Z2Nat.inj_mul by nia; reflexivity).
  rewrite (nth_error_flat_map_uniform _ (Z.to_nat cols) _ _ _ row).
  - rewrite nth_error_map, counter_nth by lia. simpl.
    rewrite Z2Nat.id by lia. reflexivity.
  - intros y. rewrite length_map. apply counter_length.
  - rewrite counter_nth by lia. rewrite Z2Nat.id by lia. reflexivity.
  - lia.
Qed.

Lemma page_number (row col : Z) :
  pageNumber (page row col) = (row * cols + col + 1)%Z /\
  ofPages (page row col) = totalPages /\
  marks (page row col) = alignmentMarks rows cols row col /\
  wrapperLeft (page row col) = - (IZR col * printableWidthPx) /\
  wrapperTop (page row col) = - (IZR row * printableHeightPx).
Proof. repeat split. Qed.
End PageFacts.

Lemma In_optional_mark (b : bool) (x m : JoinMark) :
  In m (if b then [x] else []) <-> m = x /\ b = true.
Proof.
  destruct b; simpl; split.
  - intros [E | []]. auto.
  - intros (E & _). auto.
  - contradiction.
  - intros (_ & E). discriminate.
Qed.

(** The marks of a tile, by grid position alone. *)
Lemma alignmentMarks_In (rows cols row col : Z) (m : JoinMark) :
  In m (alignmentMarks rows cols row col) <->
  (m = markTo Top (row - 1) col /\ (0 < row)%Z) \/
  (m = markTo Bottom (row + 1) col /\ (row < rows - 1)%Z) \/
  (m = markTo Left row (col - 1) /\ (0 < col)%Z) \/
  (m = markTo Right row (col + 1) /\ (col < cols - 1)%Z).
Proof.
  unfold alignmentMarks, markTo.
  replace (row - 1 + 1)%Z with row by lia.
  replace (col - 1 + 1)%Z with col by lia.
  replace (row + 1 + 1)%Z with (row + 2)%Z by lia.
  replace (col + 1 + 1)%Z with (col + 2)%Z by lia.
  rewrite !in_app_iff, !In_optional_mark.
  rewrite !Z.gtb_lt, !Z.ltb_lt. tauto.
Qed.

Open Scope Z_scope.

(** C9. In a grid of [rows] by [cols] tiles, the page of the tile at
    [(row, col)] is built by the loops, and it carries a Top mark iff
    [row > 0] (naming tile [(row - 1, col)]), a Bottom mark iff
    [row < rows - 1] (naming [(row + 1, col)]), a Left mark iff [col > 0]
    (naming [(row, col - 1)]) and a Right mark iff [col < cols - 1] (naming
    [(row, col + 1)]), and no other mark.  Every mark is answered: the tile
    named by a Right mark is in the grid and carries the Left mark naming
    this tile, and likewise Left by Right, Bottom by Top and Top by Bottom. *)
Theorem join_marks_by_adjacency :
  forall (rows cols row col totalPages : Z) (pw ph : R) (sizeLine : R * R * Unit),
    (0 <= row < rows)%Z -> (0 <= col < cols)%Z ->
    let page := createPage rows cols totalPages pw ph sizeLine in
    let pages := createPages rows cols totalPages pw ph sizeLine in
    In (page row col) pages /\
    (forall m : JoinMark,
        In m (marks (page row col)) <->
        (m = markTo Top (row - 1) col /\ (row > 0)%Z) \/
        (m = markTo Bottom (row + 1) col /\ (row < rows - 1)%Z) \/
        (m = markTo Left row (col - 1) /\ (col > 0)%Z) \/
        (m = markTo Right row (col + 1) /\ (col < cols - 1)%Z)) /\
    (In (markTo Right row (col + 1)) (marks (page row col)) ->
     In (page row (col + 1)) pages /\
     In (markTo Left row col) (marks (page row (col + 1)))) /\
    (In (markTo Left row (col - 1)) (marks (page row col)) ->
     In (page row (col - 1)) pages /\
     In (markTo Right row col) (marks (page row (col - 1)))) /\
    (In (markTo Bottom (row + 1) col) (marks (page row col)) ->
     In (page (row + 1) col) pages /\
     In (markTo Top row col) (marks (page (row + 1) col))) /\
    (In (markTo Top (row - 1) col) (marks (page row col)) ->
     In (page (row - 1) col) pages /\
     In (markTo Bottom row col) (marks (page (row - 1) col))).
Proof.
  intros rows cols row col totalPages pw ph sizeLine Hrow Hcol. cbv zeta.
  assert (Hin : forall r c, (0 <= r < rows)%Z -> (0 <= c < cols)%Z ->
                In (createPage rows cols totalPages pw ph sizeLine r c)
                   (createPages rows cols totalPages pw ph sizeLine))
    by (intros r c Hr Hc; apply createPages_In; exists r, c; auto).
  cbn [marks createPage].
  split; [apply Hin; assumption | ].
  split.
  { intros m. rewrite alignmentMarks_In.
    assert ((0 < row)%Z <-> (row > 0)%Z) by lia.
    assert ((0 < col)%Z <-> (col > 0)%Z) by lia.
    tauto. }
  repeat split.
  - apply Hin; [assumption | ].
    apply alignmentMarks_In in H.
    unfold markTo in H.
    destruct H as [(E & _) | [(E & _) | [(E & _) | (_ & Hlt)]]];
      try discriminate E; lia.
  - apply alignmentMarks_In. right; right; left.
    split; [f_equal; lia | lia].
  - apply Hin; [assumption | ].
    apply alignmentMarks_In in H. unfold markTo in H.
    destruct H as [(E & _) | [(E & _) | [(_ & Hlt) | (E & _)]]];
      try discriminate E; lia.
  - apply alignmentMarks_In. right; right; right.
    apply alignmentMarks_In in H. unfold markTo in H.
    destruct H as [(E & _) | [(E & _) | [(_ & Hlt) | (E & _)]]];
      try discriminate E.
    split; [unfold markTo; f_equal; lia | lia].
  - apply Hin; [ | assumption].
    apply alignmentMarks_In in H. unfold markTo in H.
    destruct H as [(E & _) | [(_ & Hlt) | [(E & _) | (E & _)]]];
      try discriminate E; lia.
  - apply alignmentMarks_In. left.
    split; [unfold markTo; f_equal; lia | lia].
  - apply Hin; [ | assumption].
    apply alignmentMarks_In in H. unfold markTo in H.
    destruct H as [(_ & Hlt) | [(E & _) | [(E & _) | (E & _)]]];
      try discriminate E; lia.
  - apply alignmentMarks_In. right; left.
    apply alignmentMarks_In in H. unfold markTo in H.
    destruct H as [(_ & Hlt) | [(E & _) | [(E & _) | (E & _)]]];
      try discriminate E.
    split; [unfold markTo; f_equal; lia | lia].
Qed.

Lemma join_marks_by_adjacency_witness :
  In (markTo Right 0 1) (marks (createPage 2 2 4 100%R 100%R (1%R, 1%R, unit_cm) 0 0)) /\
  In (markTo Left 0 0) (marks (createPage 2 2 4 100%R 100%R (1%R, 1%R, unit_cm) 0 1)).
Proof.
  assert (H0 : (0 <= 0 < 2)%Z) by lia.
  destruct (join_marks_by_adjacency 2 2 0 0 4 100%R 100%R (1%R, 1%R, unit_cm) H0 H0)
    as (_ & Hm & Hr & _).
  assert (R : In (markTo Right 0 1)
                 (marks (createPage 2 2 4 100%R 100%R (1%R, 1%R, unit_cm) 0 0)))
    by (apply Hm; right; right; right; split; [reflexivity | lia]).
  split; [exact R | exact (proj2 (Hr R))].
Defined.



(** [handlePrint] is the tiler on the pattern's size in pixels and the
    printable area of the chosen paper; without a pattern or a mounted SVG it
    returns at once. *)
Lemma handlePrint_tiles (pd : PatternData R) (paperSize : PaperSize) (printUnit : Unit) :
  handlePrint (Some pd) true paperSize printUnit =
  tilePattern
    (convertToPx (PatternData_width pd) (unit (PatternData_dimensions pd)))
    (convertToPx (PatternData_height pd) (unit (PatternData_dimensions pd)))
    ((fst (PAPER_SIZES paperSize) - 2 * PRINT_MARGIN_IN) * PPI)%R
    ((snd (PAPER_SIZES paperSize) - 2 * PRINT_MARGIN_IN) * PPI)%R
    (convertFromPx
       (convertToPx (PatternData_width pd) (unit (PatternData_dimensions pd)))
       printUnit,
     convertFromPx
       (convertToPx (PatternData_height pd) (unit (PatternData_dimensions pd)))
       printUnit,
     printUnit).
Proof. reflexivity. Qed.

Lemma handlePrint_not_ready (pd : option (PatternData R)) (paperSize : PaperSize)
      (printUnit : Unit) :
  handlePrint None true paperSize printUnit = NothingToPrint /\
  handlePrint pd false paperSize printUnit = NothingToPrint.
Proof. split; [reflexivity | destruct pd; reflexivity]. Qed.

(** The printable area is positive for both paper sizes, so the grid of
    [handlePrint] is the least cover of C8 whenever the pattern has positive
    width and height. *)
Lemma printable_area_pos (paperSize : PaperSize) :
  (0 < (fst (PAPER_SIZES paperSize) - 2 * PRINT_MARGIN_IN) * PPI)%R /\
  (0 < (snd (PAPER_SIZES paperSize) - 2 * PRINT_MARGIN_IN) * PPI)%R.
Proof.
  unfold PRINT_MARGIN_IN, PPI. destruct paperSize; simpl; split; lra.
Qed.

Close Scope Z_scope.

(** * Further properties of the calculator *)

(** ** What a call can return *)

(** In exact arithmetic, whatever the input, the call throws the
    [InvalidTaper] message exactly
    when the bottom diameter is strictly smaller than the top one, and throws
    no message other than the two of the source.  A returned pattern echoes
    the input dimensions, carries the width and height of its own [viewBox],
    and is the drum rectangle exactly when the two diameters are equal. *)
Theorem calculatePatternData_outcomes :
  forall dims : LampshadeDimensions R,
    (calculatePatternData dims = Throw InvalidTaper <->
     bottomDiameter dims < topDiameter dims) /\
    (forall message, calculatePatternData dims = Throw message ->
                     message = InvalidTaper \/ message = AngleOverflow) /\
    (forall p, calculatePatternData dims = Ok p ->
               PatternData_dimensions p = dims /\
               PatternData_width p = vbWidth (PatternData_viewBox p) /\
               PatternData_height p = vbHeight (PatternData_viewBox p) /\
               (isDrum p = true <-> topDiameter dims = bottomDiameter dims)).
Proof.
  intros dims. unfold calculatePatternData.
  destruct (Req_dec_T (topDiameter dims) (bottomDiameter dims)) as [E | N].
  - split; [split; [discriminate | lra] | ].
    split; [intros m H; discriminate | ].
    intros p H. injection H as <-. simpl.
    split; [reflexivity | ]. split; [reflexivity | ]. split; [reflexivity | ].
    split; auto.
  - destruct (Rle_dec (rBottom dims) (rTop dims)) as [L | G].
    + split; [split; [intros _; unfold rBottom, rTop in L; lra | reflexivity] | ].
      split; [intros m H; injection H as <-; left; reflexivity | ].
      intros p H. discriminate.
    + assert (Hlt : ~ bottomDiameter dims < topDiameter dims)
        by (unfold rBottom, rTop in G; lra).
      destruct (Rgt_dec (angle dims) (2 * PI)) as [A | A].
      * split.
        { split; [ | intros H; contradiction].
          intros H. exfalso. apply messages_differ.
          exact (eq_sym (f_equal (fun r : Result (PatternData R) =>
                                    match r with
                                    | Throw m => m
                                    | Ok _ => EmptyString
                                    end) H)). }
        split; [intros m H; injection H as <-; right; reflexivity | ].
        intros p H. discriminate.
      * split; [split; [discriminate | intros H; contradiction] | ].
        split; [intros m H; discriminate | ].
        intros p H. injection H as <-. simpl.
        split; [reflexivity | ]. split; [reflexivity | ]. split; [reflexivity | ].
        split; [discriminate | intros E; contradiction].
Qed.

(** On binary64 the halves of two distinct subnormal diameters can round to
    the same number: for top [3 * 2^-1074] and bottom [4 * 2^-1074] the
    program throws the taper message although the top is the smaller. *)
Lemma subnormal_taper_in_binary64 :
  let d := Binary64.dimsOf 0x1.8p-1073 0x1p-1072 1 cone in
  (topDiameter d <? bottomDiameter d)%float = true /\
  Binary64.rTop d = Binary64.rBottom d /\
  Binary64.calculatePatternData_branch d = Binary64.Thrown InvalidTaper.
Proof. vm_compute. repeat split. Qed.

(** ** The unrolled rims *)

(** For a valid frustum the two arcs of the outline are as long as the rims
    they unroll: inner radius times angle is the [topArcLength] field,
    [PI * topDiameter], and outer radius times angle is the [bottomArcLength]
    field, [PI * bottomDiameter]. *)
Theorem arcs_are_as_long_as_the_rims :
  forall dims : LampshadeDimensions R,
    validFrustum dims ->
    calculatePatternData dims =
    Ok (ConePatternData (pathD dims) (coneViewBox dims)
          (vbWidth (coneViewBox dims)) (vbHeight (coneViewBox dims)) dims
          (slantHeight dims)
          (LTop dims * angle dims) (LBottom dims * angle dims)) /\
    LTop dims * angle dims = PI * topDiameter dims /\
    LBottom dims * angle dims = PI * bottomDiameter dims.
Proof.
  intros dims (Ht & Htb & Hh).
  pose proof (radii_gap_pos dims Htb) as Hg.
  pose proof (slantHeight_pos dims Htb) as Hs.
  assert (HrB : rBottom dims <> 0) by (unfold rBottom; lra).
  assert (E1 : LTop dims * angle dims = PI * topDiameter dims).
  { assert (LTop dims * angle dims = 2 * PI * rTop dims)
      by (unfold angle, LTop, LBottom; field; repeat split; lra).
    unfold rTop in *. lra. }
  assert (E2 : LBottom dims * angle dims = PI * bottomDiameter dims).
  { assert (LBottom dims * angle dims = 2 * PI * rBottom dims)
      by (unfold angle, LBottom; field; repeat split; lra).
    unfold rBottom in *. lra. }
  rewrite E1, E2. split; [ | split; reflexivity].
  apply cone_branch_returns; lra.
Qed.

Lemma arcs_are_as_long_as_the_rims_witness :
  LBottom initialDimensions * angle initialDimensions = PI * 30.
Proof.
  assert (V : validFrustum initialDimensions)
    by (unfold validFrustum, initialDimensions, dimsOf; simpl; lra).
  exact (proj2 (proj2 (arcs_are_as_long_as_the_rims initialDimensions V))).
Defined.

(** ** The four corners *)

(** For every taper the outline is symmetric about the axis of the sector:
    [p4] mirrors [p1] and [p3] mirrors [p2].  Each corner lies on its arc (at
    distance [LTop] or [LBottom] from the apex) and each straight edge has the
    length of the slant height. *)
Theorem corners_of_the_sector :
  forall dims : LampshadeDimensions R,
    topDiameter dims < bottomDiameter dims ->
    (p4x dims = p1x dims /\ p4y dims = - p1y dims /\
     p3x dims = p2x dims /\ p3y dims = - p2y dims) /\
    (p1x dims ^ 2 + p1y dims ^ 2 = LTop dims ^ 2 /\
     p2x dims ^ 2 + p2y dims ^ 2 = LBottom dims ^ 2) /\
    sqrt ((p2x dims - p1x dims) ^ 2 + (p2y dims - p1y dims) ^ 2) = slantHeight dims /\
    sqrt ((p3x dims - p4x dims) ^ 2 + (p3y dims - p4y dims) ^ 2) = slantHeight dims.
Proof.
  intros dims Htb.
  pose proof (radii_difference dims Htb) as Hd.
  pose proof (slantHeight_pos dims Htb) as Hs.
  assert (Hst : startAngle dims = - endAngle dims)
    by (unfold startAngle, endAngle; lra).
  pose proof (sin2_cos2 (endAngle dims)) as Hsc. unfold Rsqr in Hsc.
  unfold p1x, p1y, p2x, p2y, p3x, p3y, p4x, p4y.
  rewrite Hst, cos_neg, sin_neg.
  set (c := cos (endAngle dims)) in *. set (s := sin (endAngle dims)) in *.
  assert (Hedge : forall sg : R, sg * sg = 1 ->
            sqrt ((LBottom dims * c - LTop dims * c) ^ 2 +
                  (LBottom dims * (sg * s) - LTop dims * (sg * s)) ^ 2) =
            slantHeight dims).
  { intros sg Hsg.
    replace ((LBottom dims * c - LTop dims * c) ^ 2 +
             (LBottom dims * (sg * s) - LTop dims * (sg * s)) ^ 2)
      with ((LBottom dims - LTop dims) ^ 2 * (c * c + (sg * sg) * (s * s)))
      by ring.
    rewrite Hsg, Hd, Rmult_1_l.
    replace (c * c + s * s) with 1 by lra.
    rewrite Rmult_1_r. simpl. rewrite Rmult_1_r.
    apply sqrt_square. lra. }
  repeat split; try ring.
  - ring_simplify. nra.
  - ring_simplify. nra.
  - replace (LBottom dims * - s) with (LBottom dims * (-1 * s)) by ring.
    replace (LTop dims * - s) with (LTop dims * (-1 * s)) by ring.
    apply Hedge. ring.
  - replace (LBottom dims * s) with (LBottom dims * (1 * s)) by ring.
    replace (LTop dims * s) with (LTop dims * (1 * s)) by ring.
    apply Hedge. ring.
Qed.

Lemma corners_of_the_sector_witness :
  sqrt ((p2x initialDimensions - p1x initialDimensions) ^ 2 +
        (p2y initialDimensions - p1y initialDimensions) ^ 2) =
  slantHeight initialDimensions.
Proof.
  assert (H : topDiameter initialDimensions < bottomDiameter initialDimensions)
    by (unfold initialDimensions, dimsOf; simpl; lra).
  exact (proj1 (proj2 (proj2 (corners_of_the_sector initialDimensions H)))).
Defined.

(** ** The angle as a function of the height *)

(** With the diameters fixed, a taller shade unrolls to a narrower sector:
    the angle strictly decreases as the height grows. *)
Theorem taller_is_narrower :
  forall d1 d2 : LampshadeDimensions R,
    topDiameter d1 = topDiameter d2 ->
    bottomDiameter d1 = bottomDiameter d2 ->
    0 < topDiameter d1 < bottomDiameter d1 ->
    0 <= height d1 < height d2 ->
    angle d2 < angle d1.
Proof.
  intros d1 d2 Et Eb (Ht & Htb) (Hh1 & Hh).
  assert (Htb2 : topDiameter d2 < bottomDiameter d2) by lra.
  pose proof (radii_gap_pos d1 Htb) as Hg.
  pose proof (slantHeight_pos d1 Htb) as Hs1.
  assert (Eg : rBottom d2 - rTop d2 = rBottom d1 - rTop d1)
    by (unfold rBottom, rTop; lra).
  assert (Hs : slantHeight d1 < slantHeight d2).
  { unfold slantHeight, verticalHeight. rewrite Eg. apply sqrt_lt_1_alt.
    split; [nra | ]. assert (height d1 ^ 2 < height d2 ^ 2) by nra. lra. }
  rewrite (angle_closed_form d1 Htb) by lra.
  rewrite (angle_closed_form d2 Htb2) by lra.
  rewrite Eg. unfold Rdiv.
  apply Rmult_lt_compat_l.
  - pose proof PI_RGT_0. apply Rmult_lt_0_compat; lra.
  - apply Rinv_lt_contravar; [apply Rmult_lt_0_compat; lra | exact Hs].
Qed.

Lemma taller_is_narrower_witness :
  angle (dimsOf 20 30 20 cone) < angle (dimsOf 20 30 5 cone).
Proof.
  apply (taller_is_narrower (dimsOf 20 30 5 cone) (dimsOf 20 30 20 cone));
    simpl; try reflexivity; lra.
Defined.

(** ** The size of the returned pattern *)

(** For a valid frustum whose sector is below a half turn, the returned
    width is [LBottom - LTop * cos (angle / 2)] and the returned height is the
    chord [2 * LBottom * sin (angle / 2)]: the pattern is at least as wide as
    the slant height and narrower than the outer radius, and its height is
    positive and at most the outer diameter. *)
Theorem size_of_a_small_sector :
  forall dims : LampshadeDimensions R,
    validFrustum dims -> angle dims < PI ->
    exists p,
      calculatePatternData dims = Ok p /\
      PatternData_width p = LBottom dims - LTop dims * cos (angle dims / 2) /\
      PatternData_height p = 2 * LBottom dims * sin (angle dims / 2) /\
      slantHeight dims <= PatternData_width p < LBottom dims /\
      0 < PatternData_height p <= 2 * LBottom dims.
Proof.
  intros dims V Hsmall.
  pose proof (coneViewBox_small dims V Hsmall) as Hvb.
  pose proof (cos_half_pos dims V Hsmall) as Hc.
  pose proof (sin_half_pos dims V Hsmall) as Hs.
  pose proof (LTop_pos dims V) as H0.
  pose proof (LTop_lt_LBottom dims V) as H1.
  pose proof (SIN_bound (endAngle dims)) as Hsb.
  destruct V as (Ht & Htb & Hh).
  pose proof (radii_difference dims Htb) as Hd.
  unfold endAngle in *.
  eexists. split; [apply cone_branch_returns; lra | ].
  cbn [PatternData_width PatternData_height]. rewrite Hvb. cbn [vbWidth vbHeight].
  assert (LTop dims * cos (angle dims / 2) <= LTop dims * 1)
    by (apply Rmult_le_compat_l; lra).
  assert (0 < LTop dims * cos (angle dims / 2))
    by (apply Rmult_lt_0_compat; lra).
  assert (0 < LBottom dims * sin (angle dims / 2))
    by (apply Rmult_lt_0_compat; lra).
  assert (LBottom dims * sin (angle dims / 2) <= LBottom dims * 1)
    by (apply Rmult_le_compat_l; lra).
  repeat split; lra.
Qed.

Lemma size_of_a_small_sector_witness :
  exists p, calculatePatternData initialDimensions = Ok p /\
            0 < PatternData_height p.
Proof.
  assert (V : validFrustum initialDimensions)
    by (unfold validFrustum, initialDimensions, dimsOf; simpl; lra).
  assert (A : angle initialDimensions < PI).
  { pose proof scenarioB_angle_bounds as Ha. pose proof PI_bounds as Hp.
    apply Rlt_trans with 1.5240; [exact (proj2 Ha) | lra]. }
  destruct (size_of_a_small_sector initialDimensions V A)
    as (p & E & _ & _ & _ & Hpos & _).
  exists p. split; assumption.
Defined.

(** ** Changing the unit of the input *)

Lemma Rmin_scale (k x y : R) : 0 <= k -> Rmin (k * x) (k * y) = k * Rmin x y.
Proof.
  intros Hk. unfold Rmin.
  destruct (Rle_dec (k * x) (k * y)), (Rle_dec x y); try reflexivity; nra.
Qed.

Lemma Rmax_scale (k x y : R) : 0 <= k -> Rmax (k * x) (k * y) = k * Rmax x y.
Proof.
  intros Hk. unfold Rmax.
  destruct (Rle_dec (k * x) (k * y)), (Rle_dec x y); try reflexivity; nra.
Qed.

Lemma Math_min_scale (k : R) (xs : list R) :
  0 <= k -> Math_min (map (Rmult k) xs) = k * Math_min xs.
Proof.
  intros Hk. destruct xs as [ | x rest]; simpl; [ring | ].
  revert x. induction rest as [ | y rest IH]; intros x; simpl.
  - reflexivity.
  - rewrite Rmin_scale by exact Hk. apply IH.
Qed.

Lemma Math_max_scale (k : R) (xs : list R) :
  0 <= k -> Math_max (map (Rmult k) xs) = k * Math_max xs.
Proof.
  intros Hk. destruct xs as [ | x rest]; simpl; [ring | ].
  revert x. induction rest as [ | y rest IH]; intros x; simpl.
  - reflexivity.
  - rewrite Rmax_scale by exact Hk. apply IH.
Qed.

Section Scaling.
Variables (k : R) (dims : LampshadeDimensions R).
Hypothesis kpos : 0 < k.
Hypothesis valid : validFrustum dims.

Lemma scaled_slantHeight : slantHeight (scaleDims k dims) = k * slantHeight dims.
Proof.
  unfold slantHeight, verticalHeight, rBottom, rTop, scaleDims.
  cbn [height topDiameter bottomDiameter].
  match goal with
  | |- sqrt ?a = k * sqrt ?b => replace a with ((k * k) * b) by field
  end.
  rewrite sqrt_mult_alt by nra. rewrite sqrt_square by lra. reflexivity.
Qed.

Lemma scaled_radii :
  rTop (scaleDims k dims) = k * rTop dims /\
  rBottom (scaleDims k dims) = k * rBottom dims.
Proof. unfold rTop, rBottom, scaleDims. simpl. split; field. Qed.

Lemma scaled_LTop : LTop (scaleDims k dims) = k * LTop dims.
Proof.
  destruct valid as (Ht & Htb & Hh). pose proof (radii_gap_pos dims Htb) as Hg.
  destruct scaled_radii as (ErT & ErB).
  unfold LTop. rewrite scaled_slantHeight, ErT, ErB. field.
  split; [lra | ]. intros E. nra.
Qed.

Lemma scaled_LBottom : LBottom (scaleDims k dims) = k * LBottom dims.
Proof.
  destruct valid as (Ht & Htb & Hh). pose proof (radii_gap_pos dims Htb) as Hg.
  destruct scaled_radii as (ErT & ErB).
  unfold LBottom. rewrite scaled_slantHeight, ErT, ErB. field.
  split; [lra | ]. intros E. nra.
Qed.

Lemma scaled_angle : angle (scaleDims k dims) = angle dims.
Proof.
  destruct valid as (Ht & Htb & Hh). pose proof (radii_gap_pos dims Htb) as Hg.
  pose proof (slantHeight_pos dims Htb) as Hs.
  destruct scaled_radii as (_ & ErB).
  unfold angle. rewrite scaled_LBottom, ErB.
  assert (LBottom dims <> 0).
  { unfold LBottom. apply Rgt_not_eq. apply Rdiv_lt_0_compat; [ | exact Hg].
    apply Rmult_lt_0_compat; [exact Hs | unfold rBottom; lra]. }
  field. split; lra.
Qed.
End Scaling.

(** Measuring the same valid frustum in another unit, every length
    multiplied by [k > 0], multiplies the slant height, the two radii and the
    [viewBox] (origin, width and height) by [k] and leaves the angle and the
    large-arc flag as they are. *)
Theorem pattern_scales_with_the_input :
  forall (k : R) (dims : LampshadeDimensions R),
    0 < k -> validFrustum dims ->
    slantHeight (scaleDims k dims) = k * slantHeight dims /\
    LTop (scaleDims k dims) = k * LTop dims /\
    LBottom (scaleDims k dims) = k * LBottom dims /\
    angle (scaleDims k dims) = angle dims /\
    largeArcFlag (scaleDims k dims) = largeArcFlag dims /\
    coneViewBox (scaleDims k dims) =
    mkViewBox (k * minX (coneViewBox dims)) (k * minY (coneViewBox dims))
      (k * vbWidth (coneViewBox dims)) (k * vbHeight (coneViewBox dims)).
Proof.
  intros k dims Hk V.
  pose proof (scaled_LTop k dims Hk V) as ET.
  pose proof (scaled_LBottom k dims Hk V) as EB.
  pose proof (scaled_angle k dims Hk V) as EA.
  split; [apply scaled_slantHeight; assumption | ].
  split; [exact ET | ]. split; [exact EB | ]. split; [exact EA | ].
  split; [unfold largeArcFlag; rewrite EA; reflexivity | ].
  assert (EX : allX (scaleDims k dims) = map (Rmult k) (allX dims)).
  { unfold allX, p1x, p2x, p3x, p4x, startAngle, endAngle.
    rewrite ET, EB, EA.
    destruct (Rlt_dec (angle dims) PI); simpl;
      rewrite ?Rmult_assoc, ?Rmult_0_r; reflexivity. }
  assert (EY : allY (scaleDims k dims) = map (Rmult k) (allY dims)).
  { unfold allY, p1y, p2y, p3y, p4y, startAngle, endAngle.
    rewrite ET, EB, EA.
    destruct (Rlt_dec (angle dims) PI); simpl;
      rewrite ?Rmult_assoc, ?Rmult_0_r; reflexivity. }
  unfold coneViewBox. rewrite EX, EY.
  rewrite !Math_min_scale, !Math_max_scale by lra.
  cbn [minX minY vbWidth vbHeight]. f_equal; ring.
Qed.

Lemma pattern_scales_with_the_input_witness :
  slantHeight (scaleDims 2.54 initialDimensions) =
  2.54 * slantHeight initialDimensions.
Proof.
  assert (K : 0 < 2.54) by lra.
  assert (V : validFrustum initialDimensions)
    by (unfold validFrustum, initialDimensions, dimsOf; simpl; lra).
  exact (proj1 (pattern_scales_with_the_input 2.54 initialDimensions K V)).
Defined.

(** * Further properties of the preview and the tiler *)

(** ** Unit conversion *)

Lemma unit_conversions_round_trip (v : R) (u : Unit) :
  convertFromPx (convertToPx v u) u = v /\
  convertToPx (convertFromPx v u) u = v.
Proof. unfold convertFromPx, convertToPx, PPI. destruct u; split; lra. Qed.

(** Converting to pixels and back in the same unit gives the value back, in
    both directions; through pixels, centimetres become inches by a division
    by 2.54 and inches become centimetres by a multiplication by 2.54,
    whatever the resolution constant. *)
Theorem unit_conversions_invert :
  forall (v : R) (u : Unit),
    convertFromPx (convertToPx v u) u = v /\
    convertToPx (convertFromPx v u) u = v /\
    convertFromPx (convertToPx v unit_cm) unit_in = v / 2.54 /\
    convertFromPx (convertToPx v unit_in) unit_cm = v * 2.54.
Proof.
  intros v u. unfold convertFromPx, convertToPx, PPI.
  destruct u; repeat split; lra.
Qed.

Lemma convertToPx_pos (v : R) (u : Unit) : 0 < v -> 0 < convertToPx v u.
Proof. unfold convertToPx, PPI. destruct u; lra. Qed.

Lemma gridCols_one (pw W : R) : 0 < pw <= W -> gridCols pw W = 1%Z.
Proof.
  intros (Hp & Hle). unfold gridCols, Math_ceil. apply Zceil_eq.
  assert (0 < pw / W) by (apply Rdiv_lt_0_compat; lra).
  assert (pw / W <= 1).
  { apply Rle_trans with (W / W); [ | right; field; lra].
    unfold Rdiv. apply Rmult_le_compat_r; [ | exact Hle].
    left; apply Rinv_0_lt_compat; lra. }
  simpl. lra.
Qed.

Lemma gridRows_one (ph H : R) : 0 < ph <= H -> gridRows ph H = 1%Z.
Proof. exact (gridCols_one ph H). Qed.

(** ** A pattern that fits on one page *)

Lemma one_page_tile (pw ph W H : R) (sizeLine : R * R * Unit) :
  0 < pw <= W -> 0 < ph <= H ->
  tilePattern pw ph W H sizeLine =
  Printed [mkPage 1 1 sizeLine 1 1 [] (- 0) (- 0)].
Proof.
  intros Hw Hh. unfold tilePattern.
  rewrite (gridCols_one pw W Hw), (gridRows_one ph H Hh).
  simpl. unfold createPages, createPage, counter. simpl.
  repeat f_equal; ring.
Qed.

(** In exact arithmetic, a pattern of positive size no larger than the
    printable area is printed
    on exactly one page: page 1 of 1, row 1, column 1, at offset 0 and with
    no join mark. *)
Theorem one_page_has_no_marks :
  forall (patternWidthPx patternHeightPx printableWidthPx printableHeightPx : R)
         (sizeLine : R * R * Unit),
    0 < patternWidthPx <= printableWidthPx ->
    0 < patternHeightPx <= printableHeightPx ->
    tilePattern patternWidthPx patternHeightPx
      printableWidthPx printableHeightPx sizeLine =
    Printed [mkPage 1 1 sizeLine 1 1 [] (- 0) (- 0)].
Proof.
  intros pw ph W H sizeLine Hw Hh. apply one_page_tile; assumption.
Qed.

Lemma one_page_has_no_marks_witness :
  tilePattern 100 100 697.92 1026.24 (100, 100, unit_px) =
  Printed [mkPage 1 1 (100, 100, unit_px) 1 1 [] (- 0) (- 0)].
Proof.
  apply (one_page_has_no_marks 100 100 697.92 1026.24 (100, 100, unit_px)); lra.
Defined.

(** ** Page numbers *)

Lemma tilePattern_printed (pw ph W H : R) (sizeLine : R * R * Unit)
      (pages : list PrintPage) :
  tilePattern pw ph W H sizeLine = Printed pages ->
  (gridCols pw W * gridRows ph H <= 50)%Z /\
  pages = createPages (gridRows ph H) (gridCols pw W)
            (gridCols pw W * gridRows ph H) W H sizeLine.
Proof.
  unfold tilePattern.
  destruct (Z.gtb_spec (gridCols pw W * gridRows ph H) 50) as [Hgt | Hle].
  - discriminate.
  - intros E. injection E as <-. split; [exact Hle | reflexivity].
Qed.

(** The pages of a print job are numbered in the order they are built: the
    page at index [k] says "Page k+1 of N" with [N] the number of pages of
    the job, and its assembly text gives row [k / cols + 1] and column
    [k mod cols + 1] of the grid. *)
Theorem pages_are_numbered_in_order :
  forall (patternWidthPx patternHeightPx printableWidthPx printableHeightPx : R)
         (sizeLine : R * R * Unit) (pages : list PrintPage) (k : nat) (p : PrintPage),
    tilePattern patternWidthPx patternHeightPx
      printableWidthPx printableHeightPx sizeLine = Printed pages ->
    nth_error pages k = Some p ->
    let cols := gridCols patternWidthPx printableWidthPx in
    pageNumber p = (Z.of_nat k + 1)%Z /\
    ofPages p = Z.of_nat (List.length pages) /\
    assemblyRow p = (Z.of_nat k / cols + 1)%Z /\
    assemblyCol p = (Z.of_nat k mod cols + 1)%Z /\
    totalSize p = sizeLine.
Proof.
  intros pw ph W H sizeLine pages k p Hprinted Hnth. cbv zeta.
  destruct (tilePattern_printed pw ph W H sizeLine pages Hprinted) as (_ & Hpages).
  set (cols := gridCols pw W) in *. set (rows := gridRows ph H) in *.
  assert (Hlen : List.length pages = (Z.to_nat rows * Z.to_nat cols)%nat)
    by (rewrite Hpages; apply createPages_length).
  assert (Hk : (k < Z.to_nat rows * Z.to_nat cols)%nat)
    by (rewrite <- Hlen; apply nth_error_Some; rewrite Hnth; discriminate).
  assert (Hcols : (0 < cols)%Z) by nia.
  assert (Hrows : (0 < rows)%Z) by nia.
  set (row := (Z.of_nat k / cols)%Z). set (col := (Z.of_nat k mod cols)%Z).
  assert (Hcol : (0 <= col < cols)%Z) by (apply Z.mod_pos_bound; exact Hcols).
  assert (Hdiv : Z.of_nat k = (row * cols + col)%Z)
    by (unfold row, col; rewrite Z.mul_comm; apply Z.div_mod; lia).
  assert (Hrow : (0 <= row < rows)%Z).
  { split; [apply Z.div_pos; lia | ].
    apply Z.div_lt_upper_bound; [exact Hcols | ]. nia. }
  pose proof (createPages_nth rows cols (cols * rows) W H sizeLine row col Hrow Hcol)
    as Hpage.
  rewrite <- Hdiv, Nat2Z.id, <- Hpages, Hnth in Hpage. injection Hpage as ->.
  cbn [pageNumber ofPages assemblyRow assemblyCol totalSize createPage].
  repeat split; lia.
Qed.

(** A pattern of 250 by 150 on pages of 100 by 100: two rows of three. *)
Lemma two_rows_of_three (sizeLine : R * R * Unit) :
  gridCols 250 100 = 3%Z /\ gridRows 150 100 = 2%Z /\
  tilePattern 250 150 100 100 sizeLine =
  Printed (createPages 2 3 6 100 100 sizeLine).
Proof.
  assert (C : gridCols 250 100 = 3%Z)
    by (unfold gridCols, Math_ceil; apply Zceil_eq; simpl; lra).
  assert (Rw : gridRows 150 100 = 2%Z)
    by (unfold gridRows, Math_ceil; apply Zceil_eq; simpl; lra).
  split; [exact C | ]. split; [exact Rw | ].
  unfold tilePattern. rewrite C, Rw. reflexivity.
Qed.

Lemma pages_are_numbered_in_order_witness :
  exists pages p,
    tilePattern 250 150 100 100 (250, 150, unit_px) = Printed pages /\
    nth_error pages 4 = Some p /\
    pageNumber p = 5%Z /\ ofPages p = 6%Z /\
    assemblyRow p = 2%Z /\ assemblyCol p = 2%Z.
Proof.
  destruct (two_rows_of_three (250, 150, unit_px)) as (C & _ & T).
  assert (N : nth_error (createPages 2 3 6 100 100 (250, 150, unit_px)) 4 =
              Some (createPage 2 3 6 100 100 (250, 150, unit_px) 1 1))
    by (apply (createPages_nth 2 3 6 100 100 (250, 150, unit_px) 1 1); lia).
  exists (createPages 2 3 6 100 100 (250, 150, unit_px)),
         (createPage 2 3 6 100 100 (250, 150, unit_px) 1 1).
  split; [exact T | ]. split; [exact N | ].
  destruct (pages_are_numbered_in_order 250 150 100 100 (250, 150, unit_px)
              _ 4%nat _ T N) as (Hn & Ho & Hr & Hc & _).
  rewrite C in Hr, Hc. rewrite createPages_length in Ho.
  exact (conj Hn (conj Ho (conj Hr Hc))).
Defined.

(** ** The windows of the pages *)

Lemma strip_of_a_point (x w extent : R) :
  0 < w -> 0 < extent -> 0 <= x <= extent ->
  exists c : Z,
    (0 <= c < Math_ceil (extent / w))%Z /\ 0 <= x + - (IZR c * w) <= w.
Proof.
  intros Hw He (Hx0 & Hx).
  pose proof (Math_ceil_pos extent w He Hw) as Hpos.
  destruct (Zceil_bound (x / w)) as (Hlo & Hup).
  assert (Hxw : x = x / w * w) by (field; lra).
  assert (Hn : (Zceil (x / w) <= Math_ceil (extent / w))%Z).
  { unfold Math_ceil. apply Zceil_le. unfold Rdiv.
    apply Rmult_le_compat_r; [left; apply Rinv_0_lt_compat; lra | lra]. }
  destruct (Z_le_gt_dec (Zceil (x / w)) 0) as [Hle | Hgt].
  - exists 0%Z. split; [lia | ].
    apply IZR_le in Hle. simpl in Hle.
    assert (x / w <= 0) by lra.
    assert (x <= 0) by (rewrite Hxw; nra).
    simpl. lra.
  - exists (Zceil (x / w) - 1)%Z. split; [lia | ].
    rewrite minus_IZR. simpl (IZR 1).
    assert ((IZR (Zceil (x / w)) - 1) * w <= x / w * w)
      by (apply Rmult_le_compat_r; lra).
    assert (x / w * w <= IZR (Zceil (x / w)) * w)
      by (apply Rmult_le_compat_r; lra).
    lra.
Qed.

Lemma strips_do_not_overlap (w x : R) (c c' : Z) :
  0 < w ->
  0 < x + - (IZR c * w) < w -> 0 < x + - (IZR c' * w) < w -> c = c'.
Proof.
  intros Hw Hc Hc'.
  assert (Hlt : forall a b : Z, (a < b)%Z ->
            0 < x + - (IZR a * w) < w -> 0 < x + - (IZR b * w) < w -> False).
  { intros a b Hab Ha Hb.
    assert (IZR (a + 1) <= IZR b) by (apply IZR_le; lia).
    rewrite plus_IZR in H. simpl (IZR 1) in H.
    assert ((IZR a + 1) * w <= IZR b * w) by (apply Rmult_le_compat_r; lra).
    lra. }
  destruct (Z.lt_trichotomy c c') as [L | [E | G]].
  - exfalso. exact (Hlt c c' L Hc Hc').
  - exact E.
  - exfalso. exact (Hlt c' c G Hc' Hc).
Qed.

(** In exact arithmetic, when a pattern of positive size is printed on a
    positive printable area,
    the windows of the pages, each of the printable size at the page's
    offsets, cover the whole bounding box of the pattern, and no point is
    strictly inside the windows of two different pages. *)
Theorem page_windows_tile_the_pattern :
  forall (patternWidthPx patternHeightPx printableWidthPx printableHeightPx : R)
         (sizeLine : R * R * Unit) (pages : list PrintPage),
    0 < patternWidthPx -> 0 < patternHeightPx ->
    0 < printableWidthPx -> 0 < printableHeightPx ->
    tilePattern patternWidthPx patternHeightPx
      printableWidthPx printableHeightPx sizeLine = Printed pages ->
    (forall x y, 0 <= x <= patternWidthPx -> 0 <= y <= patternHeightPx ->
       exists p, In p pages /\
                 inPageWindow printableWidthPx printableHeightPx p x y) /\
    (forall p q x y, In p pages -> In q pages ->
       insidePageWindow printableWidthPx printableHeightPx p x y ->
       insidePageWindow printableWidthPx printableHeightPx q x y ->
       p = q).
Proof.
  intros pw ph W H sizeLine pages Hpw Hph HW HH Hprinted.
  destruct (tilePattern_printed pw ph W H sizeLine pages Hprinted) as (_ & ->).
  split.
  - intros x y Hx Hy.
    destruct (strip_of_a_point x W pw HW Hpw Hx) as (c & Hc & Hcx).
    destruct (strip_of_a_point y H ph HH Hph Hy) as (r & Hr & Hry).
    exists (createPage (gridRows ph H) (gridCols pw W)
              (gridCols pw W * gridRows ph H) W H sizeLine r c).
    split.
    + apply createPages_In. exists r, c. repeat split; try apply Hr; apply Hc.
    + unfold inPageWindow. cbn [wrapperLeft wrapperTop createPage].
      split; assumption.
  - intros p q x y Hp Hq Hin Hin'.
    apply createPages_In in Hp. destruct Hp as (r & c & _ & _ & ->).
    apply createPages_In in Hq. destruct Hq as (r' & c' & _ & _ & ->).
    unfold insidePageWindow in Hin, Hin'.
    cbn [wrapperLeft wrapperTop createPage] in Hin, Hin'.
    destruct Hin as (Hx & Hy). destruct Hin' as (Hx' & Hy').
    rewrite (strips_do_not_overlap W x c c' HW Hx Hx').
    rewrite (strips_do_not_overlap H y r r' HH Hy Hy').
    reflexivity.
Qed.

Lemma page_windows_tile_the_pattern_witness :
  let sizeLine := (250, 150, unit_px) in
  let pages := createPages 2 3 6 100 100 sizeLine in
  (exists p, In p pages /\ inPageWindow 100 100 p 150 120) /\
  insidePageWindow 100 100 (createPage 2 3 6 100 100 sizeLine 1 1) 150 120 /\
  ~ insidePageWindow 100 100 (createPage 2 3 6 100 100 sizeLine 1 0) 150 120.
Proof.
  cbv zeta.
  destruct (two_rows_of_three (250, 150, unit_px)) as (_ & _ & T).
  destruct (page_windows_tile_the_pattern 250 150 100 100 (250, 150, unit_px) _
              ltac:(lra) ltac:(lra) ltac:(lra) ltac:(lra) T) as (Hcover & Hapart).
  assert (Hin : forall r c, (0 <= r < 2)%Z -> (0 <= c < 3)%Z ->
                In (createPage 2 3 6 100 100 (250, 150, unit_px) r c)
                   (createPages 2 3 6 100 100 (250, 150, unit_px)))
    by (intros r c Hr Hc; apply createPages_In; exists r, c; auto).
  assert (Hinside : insidePageWindow 100 100
                      (createPage 2 3 6 100 100 (250, 150, unit_px) 1 1) 150 120)
    by (unfold insidePageWindow; simpl; lra).
  split; [apply Hcover; lra | ]. split; [exact Hinside | ].
  intros Hother.
  assert (E : createPage 2 3 6 100 100 (250, 150, unit_px) 1 1 =
              createPage 2 3 6 100 100 (250, 150, unit_px) 1 0)
    by (apply (Hapart _ _ 150 120); [apply Hin; lia | apply Hin; lia | assumption | assumption]).
  apply (f_equal pageNumber) in E. simpl in E. discriminate E.
Defined.

(** ** [handlePrint] on a pattern of positive size *)

(** In exact arithmetic, for a mounted pattern of positive width and height,
    on either paper size and in any print unit, a click on Print either
    alerts that the pattern is too large, building no page, or prints between
    1 and 50 pages. *)
Theorem handlePrint_prints_1_to_50_pages :
  forall (pd : PatternData R) (paperSize : PaperSize) (printUnit : Unit),
    0 < PatternData_width pd -> 0 < PatternData_height pd ->
    let outcome := handlePrint (Some pd) true paperSize printUnit in
    (outcome = Alerted PatternTooLarge /\ printedPages outcome = []) \/
    (outcome = Printed (printedPages outcome) /\
     (1 <= List.length (printedPages outcome) <= 50)%nat).
Proof.
  intros pd paperSize printUnit Hw Hh. cbv zeta.
  rewrite handlePrint_tiles.
  set (u := unit (PatternData_dimensions pd)).
  set (pw := convertToPx (PatternData_width pd) u).
  set (ph := convertToPx (PatternData_height pd) u).
  set (W := (fst (PAPER_SIZES paperSize) - 2 * PRINT_MARGIN_IN) * PPI).
  set (H := (snd (PAPER_SIZES paperSize) - 2 * PRINT_MARGIN_IN) * PPI).
  assert (Hpw : 0 < pw) by (apply convertToPx_pos; exact Hw).
  assert (Hph : 0 < ph) by (apply convertToPx_pos; exact Hh).
  destruct (printable_area_pos paperSize) as (HW & HH). fold W in HW. fold H in HH.
  pose proof (Math_ceil_pos pw W Hpw HW) as Hc.
  pose proof (Math_ceil_pos ph H Hph HH) as Hr.
  fold (gridCols pw W) in Hc. fold (gridRows ph H) in Hr.
  unfold tilePattern.
  destruct (Z.gtb_spec (gridCols pw W * gridRows ph H) 50) as [Hgt | Hle].
  - left; split; reflexivity.
  - cbn [printedPages]. right. split; [reflexivity | ].
    rewrite createPages_length. nia.
Qed.

Lemma handlePrint_prints_1_to_50_pages_witness :
  let pd := DrumPatternData 100 (mkViewBox 0 0 100 100) 100 100
              (mkDims 20 20 20 unit_px drum) in
  (1 <= List.length (printedPages (handlePrint (Some pd) true A4 unit_px)) <= 50)%nat.
Proof.
  cbv zeta.
  destruct (handlePrint_prints_1_to_50_pages
              (DrumPatternData 100 (mkViewBox 0 0 100 100) 100 100
                 (mkDims 20 20 20 unit_px drum)) A4 unit_px)
    as [(E & _) | (_ & L)].
  - simpl. lra.
  - simpl. lra.
  - exfalso. rewrite handlePrint_tiles in E.
    unfold PAPER_SIZES, PRINT_MARGIN_IN, PPI in E. cbn [fst snd] in E.
    rewrite one_page_tile in E; [discriminate | simpl; lra | simpl; lra].
  - exact L.
Defined.

(** * Properties of the form and of the application state *)

(** ** Switching the shape *)

Lemma orElse_drum_diameter (prev : LampshadeDimensions R) :
  let m := Rmax (topDiameter prev) (bottomDiameter prev) in
  InputForm.orElse (InputForm.orElse m (bottomDiameter prev)) 0 =
  if Req_dec_T m 0 then bottomDiameter prev else m.
Proof.
  cbv zeta. unfold InputForm.orElse.
  destruct (Req_dec_T (Rmax (topDiameter prev) (bottomDiameter prev)) 0) as [E | N].
  - destruct (Req_dec_T (bottomDiameter prev) 0) as [E' | N']; [auto | reflexivity].
  - destruct (Req_dec_T (Rmax (topDiameter prev) (bottomDiameter prev)) 0);
      [contradiction | reflexivity].
Qed.

(** Selecting the drum shape sets both diameters to the larger of the two
    (to the bottom diameter when that maximum is 0), keeps height and unit,
    and leaves an input that [calculatePatternData] unrolls as a drum of that
    diameter; selecting cone or empire changes nothing but the shape. *)
Theorem selecting_drum_equalises_the_diameters :
  forall prev : LampshadeDimensions R,
    let next := InputForm.handleShapeChange drum prev in
    let m := Rmax (topDiameter prev) (bottomDiameter prev) in
    topDiameter next = bottomDiameter next /\
    bottomDiameter next = (if Req_dec_T m 0 then bottomDiameter prev else m) /\
    height next = height prev /\ unit next = unit prev /\ shape next = drum /\
    calculatePatternData next =
    Ok (DrumPatternData (PI * bottomDiameter next)
          (mkViewBox 0 0 (PI * bottomDiameter next) (height prev))
          (PI * bottomDiameter next) (height prev) next) /\
    InputForm.handleShapeChange cone prev =
    mkDims (topDiameter prev) (bottomDiameter prev) (height prev) (unit prev) cone /\
    InputForm.handleShapeChange empire prev =
    mkDims (topDiameter prev) (bottomDiameter prev) (height prev) (unit prev) empire.
Proof.
  intros prev. cbv zeta.
  pose proof (orElse_drum_diameter prev) as Hd. cbv zeta in Hd.
  unfold InputForm.handleShapeChange.
  cbn [topDiameter bottomDiameter height unit shape].
  rewrite Hd.
  repeat split.
  apply drum_branch_returns. reflexivity.
Qed.

(** On binary64 too: whatever the previous diameters, NaN included, selecting
    the drum shape leaves two diameters that compare equal, so the calculator
    takes the drum branch. *)
Theorem selecting_drum_takes_the_drum_branch_binary64 :
  forall prev : LampshadeDimensions PrimFloat.float,
    let next := InputForm64.handleShapeChange drum prev in
    (topDiameter next =? bottomDiameter next)%float = true /\
    Binary64.calculatePatternData_branch next =
    Binary64.DrumReturn (Binary64.Math_PI * bottomDiameter next)%float
      (Binary64.Math_PI * bottomDiameter next)%float (height prev).
Proof.
  intros prev. cbv zeta.
  assert (Hnan : forall x : PrimFloat.float,
             InputForm64.truthy x = true -> (x =? x)%float = true).
  { intros x. unfold InputForm64.truthy, PrimFloat.is_nan.
    destruct (x =? x)%float; [reflexivity | simpl; discriminate]. }
  unfold InputForm64.handleShapeChange.
  cbn [topDiameter bottomDiameter height unit shape].
  set (d := InputForm64.orElse
              (InputForm64.orElse
                 (InputForm64.Math_max (topDiameter prev) (bottomDiameter prev))
                 (bottomDiameter prev)) 0%float).
  assert (Hor : forall x y : PrimFloat.float,
            (y =? y)%float = true ->
            (InputForm64.orElse x y =? InputForm64.orElse x y)%float = true).
  { intros x y Hy. unfold InputForm64.orElse.
    destruct (InputForm64.truthy x) eqn:E; [apply Hnan; exact E | exact Hy]. }
  assert (Hd : (d =? d)%float = true)
    by (unfold d; apply Hor; reflexivity).
  split; [exact Hd | ].
  unfold Binary64.calculatePatternData_branch.
  cbn [topDiameter bottomDiameter height]. rewrite Hd. reflexivity.
Qed.

(** ** Validation *)

Lemma validate_passes_iff (d : LampshadeDimensions R) :
  App.hasErrors (App.validate d) = false <->
  0 < topDiameter d /\ 0 < bottomDiameter d /\ 0 < height d /\
  (App.isTapered (shape d) = true -> topDiameter d < bottomDiameter d).
Proof.
  unfold App.validate.
  destruct (Rle_dec (topDiameter d) 0) as [T | T];
    destruct (Rle_dec (bottomDiameter d) 0) as [B | B];
    destruct (Rle_dec (height d) 0) as [Hh | Hh];
    destruct (App.isTapered (shape d));
    destruct (Rge_dec (topDiameter d) (bottomDiameter d)) as [G | G];
    simpl; split; intros H;
    try discriminate H;
    try (destruct H as (H1 & H2 & H3 & H4); try specialize (H4 eq_refl); lra);
    repeat split; try lra; try (intros E; discriminate E); try (intros _; lra).
Qed.

(** [handleGenerate] finds no validation error exactly when the three
    numbers are positive and, for a cone or an empire shade, the top diameter
    is strictly smaller than the bottom one.  The height and bottom-diameter
    messages are set exactly for a non-positive value; on the top diameter
    the taper message replaces the positivity message when both apply. *)
Theorem validation_passes_iff :
  forall d : LampshadeDimensions R,
    (App.hasErrors (App.validate d) = false <->
     0 < topDiameter d /\ 0 < bottomDiameter d /\ 0 < height d /\
     (App.isTapered (shape d) = true -> topDiameter d < bottomDiameter d)) /\
    (App.heightError (App.validate d) = Some App.heightMessage <-> height d <= 0) /\
    (App.bottomDiameterError (App.validate d) = Some App.diameterMessage <->
     bottomDiameter d <= 0) /\
    (App.isTapered (shape d) = true -> bottomDiameter d <= topDiameter d ->
     App.topDiameterError (App.validate d) = Some App.taperMessage) /\
    (~ (App.isTapered (shape d) = true /\ bottomDiameter d <= topDiameter d) ->
     (App.topDiameterError (App.validate d) = Some App.diameterMessage <->
      topDiameter d <= 0)).
Proof.
  intros d. split; [apply validate_passes_iff | ].
  unfold App.validate.
  destruct (Rle_dec (topDiameter d) 0) as [T | T];
    destruct (Rle_dec (bottomDiameter d) 0) as [B | B];
    destruct (Rle_dec (height d) 0) as [Hh | Hh];
    destruct (App.isTapered (shape d));
    destruct (Rge_dec (topDiameter d) (bottomDiameter d)) as [G | G];
    simpl;
    repeat split; intros; try reflexivity; try discriminate; try lra;
    try (exfalso; lra);
    try (match goal with H : ~ _ |- _ => exfalso; apply H; split; [reflexivity | lra] end).
Qed.

(** ** Reachable states of the application *)

Lemma applyEvent_drumEqual (dims : LampshadeDimensions R) (fe : InputForm.FormEvent) :
  App.drumEqual dims -> InputForm.rendered dims fe ->
  App.drumEqual (InputForm.applyEvent fe dims).
Proof.
  unfold App.drumEqual. intros Hd Hr.
  destruct fe as [name value | value | u | s]; simpl in *.
  - destruct name; simpl in *; intros Hs; try contradiction; auto.
  - intros _. reflexivity.
  - exact Hd.
  - destruct s; simpl; intros Hs; try discriminate Hs. reflexivity.
Qed.

Ltac invariant_parts :=
  unfold appInvariant;
  refine (conj _ (conj _ (conj _ (conj _ (conj _ (conj _ _)))))).

Lemma calculatePatternData_echo : App.echoes calculatePatternData.
Proof.
  intros dims p. unfold calculatePatternData. intros E.
  destruct (Req_dec_T (topDiameter dims) (bottomDiameter dims));
    [injection E as <-; reflexivity | ].
  destruct (Rle_dec (rBottom dims) (rTop dims)); [discriminate | ].
  destruct (Rgt_dec (angle dims) (2 * PI)); [discriminate | ].
  injection E as <-. reflexivity.
Qed.

Lemma isDrum_iff_equal : App.drumWhenEqual calculatePatternData.
Proof.
  intros dims p. unfold calculatePatternData. intros E.
  destruct (Req_dec_T (topDiameter dims) (bottomDiameter dims)) as [Eq | N].
  - injection E as <-. simpl. split; auto.
  - destruct (Rle_dec (rBottom dims) (rTop dims)); [discriminate | ].
    destruct (Rgt_dec (angle dims) (2 * PI)); [discriminate | ].
    injection E as <-. simpl. split; [discriminate | intros; contradiction].
Qed.

Lemma calculateAsRun_cases (d : LampshadeDimensions R) :
  calculateAsRun d = calculatePatternData d \/ calculateAsRun d = Throw AngleOverflow.
Proof.
  unfold calculateAsRun.
  destruct (Req_dec_T (topDiameter d) 20); [ | left; reflexivity].
  destruct (Req_dec_T (bottomDiameter d) 26); [ | left; reflexivity].
  destruct (Req_dec_T (height d) height_1e_9); [right | left]; reflexivity.
Qed.

Lemma calculateAsRun_echo : App.echoes calculateAsRun.
Proof.
  intros d p E. destruct (calculateAsRun_cases d) as [H | H]; rewrite H in E.
  - exact (calculatePatternData_echo d p E).
  - discriminate E.
Qed.

Lemma calculateAsRun_drum : App.drumWhenEqual calculateAsRun.
Proof.
  intros d p E. destruct (calculateAsRun_cases d) as [H | H]; rewrite H in E.
  - exact (isDrum_iff_equal d p E).
  - discriminate E.
Qed.

Section Reachability.
Variable calculate : LampshadeDimensions R -> Result (PatternData R).
Hypothesis echo : App.echoes calculate.

Lemma initialState_invariant (stored : list App.SavedPattern) :
  Forall (fun p => App.drumEqual (App.savedDimensions p)) stored ->
  appInvariant calculate (App.initialState stored).
Proof.
  intros Hst. invariant_parts; simpl.
  - intros H; discriminate H.
  - exact Hst.
  - intros captured H; discriminate H.
  - intros pd H; discriminate H.
  - left; reflexivity.
  - intros H; discriminate H.
  - split; [intros H; discriminate H | intros H; contradiction H; reflexivity].
Qed.

Lemma step_invariant (s : App.AppState) (e : App.Event) :
  appInvariant calculate s -> App.possible s e ->
  appInvariant calculate (App.step calculate s e).
Proof.
  intros (Id & Is & Ip & Ipd & Ix & Iv & Ig) Hpos.
  destruct e as [fe | | | now | i | i]; simpl in Hpos; simpl App.step.
  - (* a form input *)
    unfold App.setDimensions. invariant_parts; simpl; try assumption.
    apply applyEvent_drumEqual; assumption.
  - (* Generate *)
    assert (Hnone : App.pendingTimeout s = None).
    { destruct (App.pendingTimeout s) eqn:E; [ | reflexivity].
      assert (App.isGenerating s = true) by (apply Ig; discriminate).
      congruence. }
    unfold App.handleGenerate.
    destruct (App.hasErrors (App.validate (App.dimensions s))) eqn:Ev;
      invariant_parts; simpl; try assumption.
    + rewrite Hnone. intros captured H; discriminate H.
    + intros pd H; discriminate H.
    + left; reflexivity.
    + intros _. split; reflexivity.
    + intros captured H. injection H as <-.
      repeat split; assumption.
    + intros pd H; discriminate H.
    + left; reflexivity.
    + intros H; discriminate H.
    + split; [intros _; discriminate | reflexivity].
  - (* the timer fires *)
    unfold App.generationTimeout.
    destruct (App.pendingTimeout s) as [captured | ] eqn:Ec;
      [ | contradiction Hpos; reflexivity].
    destruct (Ip captured eq_refl) as (Hcd & Hcv & Hpn & Hen & Hvn).
    destruct (calculate captured) as [data | message] eqn:Ecalc;
      invariant_parts; simpl; try assumption.
    + intros c H; discriminate H.
    + intros pd H. injection H as <-.
      rewrite (echo captured data Ecalc).
      repeat split; assumption.
    + right; exact Hen.
    + rewrite Hvn. intros H; discriminate H.
    + split; [intros H; discriminate H | intros H; contradiction H; reflexivity].
    + intros c H; discriminate H.
    + left; exact Hpn.
    + rewrite Hvn. intros H; discriminate H.
    + split; [intros H; discriminate H | intros H; contradiction H; reflexivity].
  - (* Save *)
    destruct Hpos as (Hp & He).
    unfold App.handleSave.
    destruct (App.patternData s) as [pd | ] eqn:Epd; [ | contradiction Hp; reflexivity].
    destruct (Ipd pd eq_refl) as (_ & Hpdd & _).
    unfold App.handleSavePattern. invariant_parts; simpl; try assumption.
    + apply Forall_app. split; [exact Is | ]. constructor; [exact Hpdd | constructor].
    + rewrite Epd. exact Ip.
    + rewrite Epd. exact Ipd.
    + rewrite Epd. exact Ix.
    + rewrite Epd. exact Iv.
  - (* Load *)
    unfold App.handleLoadPattern.
    destruct (find (fun p => (App.id p =? i)%Z) (App.savedPatterns s))
      as [patternToLoad | ] eqn:Ef.
    + apply find_some in Ef. destruct Ef as (Hin & _).
      invariant_parts; simpl; try assumption.
      * rewrite Forall_forall in Is. apply Is. exact Hin.
      * intros captured H. destruct (Ip captured H) as (H1 & H2 & _).
        repeat split; assumption.
      * intros pd H; discriminate H.
      * left; reflexivity.
      * intros H; discriminate H.
    + invariant_parts; assumption.
  - (* Delete *)
    unfold App.handleDeletePattern. invariant_parts; simpl; try assumption.
    rewrite Forall_forall in *. intros p Hp. apply filter_In in Hp. apply Is, Hp.
Qed.

Lemma reachable_invariant (stored : list App.SavedPattern) (s : App.AppState) :
  Forall (fun p => App.drumEqual (App.savedDimensions p)) stored ->
  App.reachable calculate stored s -> appInvariant calculate s.
Proof.
  intros Hst Hr. induction Hr as [ | s e Hr IH Hpos].
  - apply initialState_invariant; exact Hst.
  - apply step_invariant; assumption.
Qed.
End Reachability.

(** From the first state, Generate and then the timer show the pattern of
    the initial dimensions. *)
Lemma first_generation :
  let s := App.step calculatePatternData
             (App.step calculatePatternData (App.initialState []) App.Generate)
             App.Timeout in
  App.reachable calculatePatternData [] s /\
  App.patternData s =
  Some (ConePatternData (pathD initialDimensions) (coneViewBox initialDimensions)
          (vbWidth (coneViewBox initialDimensions))
          (vbHeight (coneViewBox initialDimensions)) initialDimensions
          (slantHeight initialDimensions) (PI * 20) (PI * 30)).
Proof.
  cbv zeta.
  assert (Hv : App.hasErrors (App.validate initialDimensions) = false).
  { apply validate_passes_iff. unfold initialDimensions, dimsOf. simpl.
    repeat split; try lra. }
  assert (Hc : calculatePatternData initialDimensions =
               Ok (ConePatternData (pathD initialDimensions)
                     (coneViewBox initialDimensions)
                     (vbWidth (coneViewBox initialDimensions))
                     (vbHeight (coneViewBox initialDimensions)) initialDimensions
                     (slantHeight initialDimensions) (PI * 20) (PI * 30)))
    by (apply cone_branch_returns; unfold initialDimensions, dimsOf; simpl; lra).
  assert (E1 : App.step calculatePatternData (App.initialState []) App.Generate =
               App.mkState initialDimensions None None App.noErrors true []
                 (Some initialDimensions)).
  { simpl. unfold App.handleGenerate. simpl App.dimensions. rewrite Hv. reflexivity. }
  split.
  - apply App.reachable_step.
    + apply App.reachable_step; [apply App.reachable_init | reflexivity].
    + rewrite E1. simpl. discriminate.
  - rewrite E1. unfold App.step, App.generationTimeout.
    cbn [App.pendingTimeout]. rewrite Hc. reflexivity.
Qed.

(** Typing bottom 26 and height [1e-9] into the initial cone, then Generate
    and the timer: the dimensions pass validation and the run ends with the
    angle message as its error, and no pattern. *)
Lemma nearlyFlatRun_state :
  App.reachable calculateAsRun [] nearlyFlatRun /\
  nearlyFlatRun =
  App.mkState (mkDims 20 26 height_1e_9 unit_cm cone) None (Some AngleOverflow)
    App.noErrors false [] None.
Proof.
  assert (Hpos : 0 < height_1e_9).
  { unfold height_1e_9. apply Rdiv_lt_0_compat; [lra | apply pow_lt; lra]. }
  set (d := mkDims 20 26 height_1e_9 unit_cm cone).
  assert (Hv : App.hasErrors (App.validate d) = false).
  { apply validate_passes_iff. unfold d. simpl. repeat split; try lra. }
  assert (Hc : calculateAsRun d = Throw AngleOverflow).
  { unfold calculateAsRun, d. simpl.
    destruct (Req_dec_T 20 20) as [_ | N]; [ | contradiction N; reflexivity].
    destruct (Req_dec_T 26 26) as [_ | N]; [ | contradiction N; reflexivity].
    destruct (Req_dec_T height_1e_9 height_1e_9) as [_ | N];
      [reflexivity | contradiction N; reflexivity]. }
  set (s1 := App.step calculateAsRun (App.initialState [])
               (App.Form (InputForm.Change InputForm.bottomDiameterName (Some 26)))).
  set (s2 := App.step calculateAsRun s1
               (App.Form (InputForm.Change InputForm.heightName (Some height_1e_9)))).
  assert (E2 : s2 = App.mkState d None None App.noErrors false [] None)
    by reflexivity.
  assert (E3 : App.step calculateAsRun s2 App.Generate =
               App.mkState d None None App.noErrors true [] (Some d)).
  { rewrite E2. simpl. unfold App.handleGenerate. simpl App.dimensions.
    rewrite Hv. reflexivity. }
  assert (R2 : App.reachable calculateAsRun [] s2).
  { apply App.reachable_step.
    - apply App.reachable_step; [apply App.reachable_init | ].
      simpl. discriminate.
    - exact I. }
  unfold nearlyFlatRun. fold s1. fold s2. split.
  - apply App.reachable_step.
    + apply App.reachable_step; [exact R2 | rewrite E2; reflexivity].
    + rewrite E3. simpl. discriminate.
  - rewrite E3. unfold App.step, App.generationTimeout.
    cbn [App.pendingTimeout]. rewrite Hc. reflexivity.
Qed.

(** A stored drum, loaded into the form. *)
Lemma loaded_drum_state :
  let stored := [App.mkSaved (dimsOf 15 15 25 drum) 5] in
  let s := App.step calculatePatternData (App.initialState stored) (App.Load 5) in
  Forall (fun p => App.drumEqual (App.savedDimensions p)) stored /\
  App.reachable calculatePatternData stored s /\
  shape (App.dimensions s) = drum.
Proof.
  cbv zeta. split; [ | split].
  - apply Forall_cons; [ | apply Forall_nil]. intros _. reflexivity.
  - apply App.reachable_step; [apply App.reachable_init | ].
    simpl. eexists. split; [left; reflexivity | reflexivity].
  - reflexivity.
Qed.

(** Whatever the calculator, provided a returned pattern echoes its input:
    in every state the application can reach (from stored patterns whose
    drums have equal diameters), a form set to the drum shape has equal
    diameters; a pattern and a calculation error are never shown together,
    and neither is shown beside validation errors; [isGenerating] is set
    exactly while the timer is pending, and then nothing is shown yet. *)
Theorem reachable_states_are_consistent :
  forall (calculate : LampshadeDimensions R -> Result (PatternData R))
         (stored : list App.SavedPattern) (s : App.AppState),
    App.echoes calculate ->
    Forall (fun p => App.drumEqual (App.savedDimensions p)) stored ->
    App.reachable calculate stored s ->
    (shape (App.dimensions s) = drum ->
     topDiameter (App.dimensions s) = bottomDiameter (App.dimensions s)) /\
    ~ (App.patternData s <> None /\ App.error s <> None) /\
    (App.hasErrors (App.validationErrors s) = true ->
     App.patternData s = None /\ App.error s = None /\ App.isGenerating s = false) /\
    (App.isGenerating s = true <-> App.pendingTimeout s <> None) /\
    (App.isGenerating s = true ->
     App.patternData s = None /\ App.error s = None /\
     App.validationErrors s = App.noErrors).
Proof.
  intros calculate stored s Hecho Hst Hr.
  destruct (reachable_invariant calculate Hecho stored s Hst Hr)
    as (Id & Is & Ip & Ipd & Ix & Iv & Ig).
  assert (Hgen : App.isGenerating s = true ->
                 App.patternData s = None /\ App.error s = None /\
                 App.validationErrors s = App.noErrors).
  { intros Hg. apply Ig in Hg.
    destruct (App.pendingTimeout s) as [captured | ] eqn:E;
      [ | contradiction Hg; reflexivity].
    destruct (Ip captured eq_refl) as (_ & _ & H1 & H2 & H3). auto. }
  split; [exact Id | ].
  split; [intros (H1 & H2); destruct Ix; contradiction | ].
  split.
  { intros Hv. destruct (Iv Hv) as (H1 & H2). repeat split; try assumption.
    destruct (App.isGenerating s) eqn:Eg; [ | reflexivity].
    destruct (Hgen eq_refl) as (_ & _ & Hn). rewrite Hn in Hv. discriminate Hv. }
  split; [exact Ig | exact Hgen].
Qed.

Lemma reachable_states_are_consistent_witness :
  (App.error nearlyFlatRun = Some AngleOverflow /\
   ~ (App.patternData nearlyFlatRun <> None /\ App.error nearlyFlatRun <> None)) /\
  (let s := App.step calculatePatternData
              (App.step calculatePatternData (App.initialState []) App.Generate)
              App.Timeout in
   App.patternData s <> None /\
   ~ (App.patternData s <> None /\ App.error s <> None)) /\
  (let s := App.step calculatePatternData
              (App.initialState [App.mkSaved (dimsOf 15 15 25 drum) 5])
              (App.Load 5) in
   shape (App.dimensions s) = drum /\
   topDiameter (App.dimensions s) = bottomDiameter (App.dimensions s)).
Proof.
  split; [ | split].
  - destruct nearlyFlatRun_state as (Hr & Hs). split.
    + rewrite Hs. reflexivity.
    + exact (proj1 (proj2 (reachable_states_are_consistent calculateAsRun []
                             nearlyFlatRun calculateAsRun_echo (Forall_nil _) Hr))).
  - cbv zeta. destruct first_generation as (Hr & Hp). split.
    + rewrite Hp. discriminate.
    + exact (proj1 (proj2 (reachable_states_are_consistent calculatePatternData []
                             _ calculatePatternData_echo (Forall_nil _) Hr))).
  - cbv zeta. destruct loaded_drum_state as (Hst & Hr & Hs). split.
    + exact Hs.
    + exact (proj1 (reachable_states_are_consistent calculatePatternData _
                      _ calculatePatternData_echo Hst Hr) Hs).
Defined.

(** Whatever the calculator, provided a returned pattern echoes its input
    and is the drum rectangle exactly for equal diameters: in every state
    reachable from stored patterns whose drums have equal diameters, a
    pattern on screen is the calculator's result for its own dimensions,
    which passed validation: they are positive, and the pattern is the drum
    rectangle exactly when their shape is the drum; for a cone or an empire
    shade the top diameter is strictly smaller than the bottom. *)
Theorem shown_pattern_matches_its_shape :
  forall (calculate : LampshadeDimensions R -> Result (PatternData R))
         (stored : list App.SavedPattern) (s : App.AppState) (pd : PatternData R),
    App.echoes calculate -> App.drumWhenEqual calculate ->
    Forall (fun p => App.drumEqual (App.savedDimensions p)) stored ->
    App.reachable calculate stored s ->
    App.patternData s = Some pd ->
    let d := PatternData_dimensions pd in
    calculate d = Ok pd /\
    0 < topDiameter d /\ 0 < bottomDiameter d /\ 0 < height d /\
    (isDrum pd = true <-> shape d = drum) /\
    (shape d <> drum -> topDiameter d < bottomDiameter d).
Proof.
  intros calculate stored s pd Hecho Hdrumeq Hst Hr Hpd. cbv zeta.
  destruct (reachable_invariant calculate Hecho stored s Hst Hr)
    as (_ & _ & _ & Ipd & _).
  destruct (Ipd pd Hpd) as (Hcalc & Hdrum & Hval).
  apply validate_passes_iff in Hval. destruct Hval as (Ht & Hb & Hh & Htap).
  split; [exact Hcalc | ]. split; [exact Ht | ]. split; [exact Hb | ].
  split; [exact Hh | ].
  assert (Hshape : shape (PatternData_dimensions pd) <> drum ->
                   topDiameter (PatternData_dimensions pd) <
                   bottomDiameter (PatternData_dimensions pd)).
  { intros Hs. apply Htap.
    destruct (shape (PatternData_dimensions pd)); try reflexivity.
    contradiction Hs; reflexivity. }
  split; [ | exact Hshape].
  pose proof (Hdrumeq _ _ Hcalc) as Hiff.
  split.
  - intros Hd. apply Hiff in Hd.
    destruct (shape (PatternData_dimensions pd)) eqn:Es; try reflexivity.
    + assert (topDiameter (PatternData_dimensions pd) <
              bottomDiameter (PatternData_dimensions pd))
        by (apply Hshape; discriminate).
      lra.
    + assert (topDiameter (PatternData_dimensions pd) <
              bottomDiameter (PatternData_dimensions pd))
        by (apply Hshape; discriminate).
      lra.
  - intros Hs. apply Hiff. exact (Hdrum Hs).
Qed.

Lemma shown_pattern_matches_its_shape_witness :
  exists pd,
    App.patternData
      (App.step calculatePatternData
         (App.step calculatePatternData (App.initialState []) App.Generate)
         App.Timeout) = Some pd /\
    (isDrum pd = true <-> shape (PatternData_dimensions pd) = drum).
Proof.
  destruct first_generation as (Hr & Hp).
  eexists. split; [exact Hp | ].
  exact (proj1 (proj2 (proj2 (proj2 (proj2
           (shown_pattern_matches_its_shape calculatePatternData [] _ _
              calculatePatternData_echo isDrum_iff_equal
              (Forall_nil _) Hr Hp)))))).
Defined.

(** ** Saved patterns *)

Lemma find_app_fresh (f : App.SavedPattern -> bool) (l : list App.SavedPattern)
      (x : App.SavedPattern) :
  (forall p, In p l -> f p = false) -> f x = true -> find f (l ++ [x]) = Some x.
Proof.
  intros Hl Hx. induction l as [ | y l IH]; simpl.
  - rewrite Hx. reflexivity.
  - rewrite (Hl y (or_introl eq_refl)). apply IH.
    intros p Hp. apply Hl. right. exact Hp.
Qed.

Lemma filter_all_kept (f : App.SavedPattern -> bool) (l : list App.SavedPattern) :
  (forall p, In p l -> f p = true) -> filter f l = l.
Proof.
  intros Hl. induction l as [ | y l IH]; simpl; [reflexivity | ].
  rewrite (Hl y (or_introl eq_refl)). f_equal. apply IH.
  intros p Hp. apply Hl. right. exact Hp.
Qed.

(** Saving a pattern under a timestamp no saved pattern has, then loading
    that timestamp, puts the saved dimensions back in the form and clears the
    pattern, the error and the validation errors; deleting the timestamp
    instead gives back the list as it was before the save. *)
Theorem saved_pattern_loads_back :
  forall (now : Z) (d : LampshadeDimensions R) (s : App.AppState),
    (forall p, In p (App.savedPatterns s) -> App.id p <> now) ->
    let saved := App.handleSavePattern now d s in
    App.savedPatterns saved = App.savedPatterns s ++ [App.mkSaved d now] /\
    App.handleLoadPattern now saved =
    App.mkState d None None App.noErrors (App.isGenerating s)
      (App.savedPatterns s ++ [App.mkSaved d now]) (App.pendingTimeout s) /\
    App.savedPatterns (App.handleDeletePattern now saved) = App.savedPatterns s.
Proof.
  intros now d s Hfresh. cbv zeta.
  split; [reflexivity | ]. split.
  - unfold App.handleLoadPattern, App.handleSavePattern. simpl.
    rewrite (find_app_fresh _ _ (App.mkSaved d now)).
    + reflexivity.
    + intros p Hp. apply Z.eqb_neq. apply Hfresh. exact Hp.
    + simpl. apply Z.eqb_refl.
  - unfold App.handleDeletePattern, App.handleSavePattern. simpl.
    rewrite filter_app. simpl. rewrite Z.eqb_refl. simpl.
    rewrite app_nil_r. apply filter_all_kept.
    intros p Hp. apply Bool.negb_true_iff. apply Z.eqb_neq. apply Hfresh. exact Hp.
Qed.

Lemma saved_pattern_loads_back_witness :
  let others := [App.mkSaved (dimsOf 20 30 20 cone) 3;
                 App.mkSaved (dimsOf 15 15 25 drum) 5] in
  let s := App.initialState others in
  let saved := App.handleSavePattern 7 (dimsOf 10 10 10 drum) s in
  App.savedPatterns saved = others ++ [App.mkSaved (dimsOf 10 10 10 drum) 7] /\
  App.dimensions (App.handleLoadPattern 7 saved) = dimsOf 10 10 10 drum /\
  App.savedPatterns (App.handleDeletePattern 7 saved) = others.
Proof.
  cbv zeta.
  assert (F : forall p,
             In p (App.savedPatterns
                     (App.initialState
                        [App.mkSaved (dimsOf 20 30 20 cone) 3;
                         App.mkSaved (dimsOf 15 15 25 drum) 5])) ->
             App.id p <> 7%Z).
  { simpl. intros p [E | [E | []]]; subst p; simpl; lia. }
  destruct (saved_pattern_loads_back 7 (dimsOf 10 10 10 drum) _ F) as (E1 & E2 & E3).
  split; [exact E1 | ]. split; [rewrite E2; reflexivity | exact E3].
Defined.


(** ** A stored drum with unequal diameters *)

(** Loading does not equalise the diameters.  Whatever the calculator,
    provided a returned pattern echoes its input and is the drum rectangle
    exactly for equal diameters: when a saved pattern of shape drum with
    positive height and [0 < topDiameter < bottomDiameter] is loaded while no
    generation is pending, then generated, validation passes (the taper test
    is only made for cone and empire) and the state ends either with the
    calculator's error or with a pattern that is not the drum rectangle
    although the shape of its dimensions is drum. *)
Theorem loaded_uneven_drum_is_not_unrolled_as_a_drum :
  forall (calculate : LampshadeDimensions R -> Result (PatternData R))
         (s : App.AppState) (p : App.SavedPattern),
    App.echoes calculate -> App.drumWhenEqual calculate ->
    find (fun q => (App.id q =? App.id p)%Z) (App.savedPatterns s) = Some p ->
    shape (App.savedDimensions p) = drum ->
    0 < topDiameter (App.savedDimensions p) < bottomDiameter (App.savedDimensions p) ->
    0 < height (App.savedDimensions p) ->
    let loaded := App.step calculate s (App.Load (App.id p)) in
    let final := App.step calculate (App.step calculate loaded App.Generate)
                   App.Timeout in
    App.dimensions loaded = App.savedDimensions p /\
    App.hasErrors (App.validate (App.dimensions loaded)) = false /\
    App.dimensions final = App.savedDimensions p /\
    App.validationErrors final = App.noErrors /\
    App.isGenerating final = false /\
    ((exists message, calculate (App.savedDimensions p) = Throw message /\
                      App.error final = Some message /\ App.patternData final = None) \/
     (exists pd, calculate (App.savedDimensions p) = Ok pd /\
                 App.patternData final = Some pd /\ App.error final = None /\
                 isDrum pd = false /\ shape (PatternData_dimensions pd) = drum)).
Proof.
  intros calculate s p Hecho Hdrum Hfind Hshape (Ht & Htb) Hh. cbv zeta.
  assert (Hv : App.hasErrors (App.validate (App.savedDimensions p)) = false).
  { apply validate_passes_iff.
    refine (conj _ (conj _ (conj _ _))); [lra | lra | lra | ].
    rewrite Hshape. simpl. intros E. discriminate E. }
  assert (E1 : App.step calculate s (App.Load (App.id p)) =
               App.mkState (App.savedDimensions p) None None App.noErrors
                 (App.isGenerating s) (App.savedPatterns s) (App.pendingTimeout s)).
  { simpl. unfold App.handleLoadPattern. rewrite Hfind. reflexivity. }
  rewrite E1. cbn [App.dimensions].
  assert (E2 : App.step calculate
                 (App.mkState (App.savedDimensions p) None None App.noErrors
                    (App.isGenerating s) (App.savedPatterns s) (App.pendingTimeout s))
                 App.Generate =
               App.mkState (App.savedDimensions p) None None App.noErrors true
                 (App.savedPatterns s) (Some (App.savedDimensions p))).
  { simpl. unfold App.handleGenerate. cbn [App.dimensions]. rewrite Hv. reflexivity. }
  rewrite E2. unfold App.step, App.generationTimeout. cbn [App.pendingTimeout].
  split; [reflexivity | ]. split; [exact Hv | ].
  destruct (calculate (App.savedDimensions p)) as [pd | message] eqn:Ec;
    cbn [App.dimensions App.validationErrors App.isGenerating App.error
         App.patternData].
  - repeat split. right. exists pd. repeat split.
    + destruct (isDrum pd) eqn:Ed; [ | reflexivity].
      apply (Hdrum _ _ Ec) in Ed. lra.
    + rewrite (Hecho _ _ Ec). exact Hshape.
  - repeat split. left. exists message. repeat split.
Qed.

Lemma loaded_uneven_drum_is_not_unrolled_as_a_drum_witness :
  let final :=
    App.step calculatePatternData
      (App.step calculatePatternData
         (App.step calculatePatternData (App.initialState [unevenDrum]) (App.Load 3))
         App.Generate)
      App.Timeout in
  exists pd, App.patternData final = Some pd /\ isDrum pd = false /\
             shape (PatternData_dimensions pd) = drum.
Proof.
  cbv zeta.
  assert (Hf : find (fun q => (App.id q =? App.id unevenDrum)%Z)
                 (App.savedPatterns (App.initialState [unevenDrum])) = Some unevenDrum)
    by reflexivity.
  destruct (loaded_uneven_drum_is_not_unrolled_as_a_drum calculatePatternData
              (App.initialState [unevenDrum]) unevenDrum
              calculatePatternData_echo isDrum_iff_equal Hf eq_refl
              ltac:(simpl; lra) ltac:(simpl; lra))
    as (_ & _ & _ & _ & _ & [(message & Hc & _) | (pd & _ & Hp & _ & Hd & Hs)]).
  - exfalso.
    rewrite (cone_branch_returns (App.savedDimensions unevenDrum)) in Hc;
      [discriminate Hc | simpl; lra | simpl; lra].
  - exists pd. repeat split; assumption.
Defined.
